(** * Flow control operations of the recipe interpreter

    A shallow embedding of [src/core/operations/legacy/FlowControl.js]
    (Fork, Merge, Jump, Conditional Jump, Return, Comment, the label
    resolver and the register substitution of Register), followed by the
    properties that its specification states about them.

    JavaScript numbers are modelled by integers ([Z]) plus [NaN], and the
    value of a number in a comparison by a rational or an infinity; strings by
    [string]; the mutable execution state by explicit state passing, every
    primitive returning the state object as it is when the primitive
    returns or throws. *)

From Stdlib Require Import ZArith QArith Qround List String Ascii Bool Lia.
From Stdlib Require Import Numbers.DecimalString.
Import ListNotations.

Open Scope string_scope.
Open Scope list_scope.
Open Scope Z_scope.

(** ** JavaScript values seen by the flow control code *)

Module JS.

(** The primitive values that ingredient lists and the value container
    hand to the flow control code.  Numbers are the integers, which a
    JavaScript number holds exactly up to 2^53 in absolute value, and
    [NaN]; a number with a fraction is carried as the text of a number and
    read by [string_to_number].
    Structured ingredient values (objects that wrap a text field) are
    looked into by the argument rewriting of Register only and are not
    represented. *)
Inductive jsval : Type :=
| JUndefined
| JNull
| JBool (b : bool)
| JNum (n : Z)
| JNaN
| JStr (s : string).

(** [if (v)] *)
Definition truthy (v : jsval) : bool :=
  match v with
  | JUndefined | JNull | JNaN => false
  | JBool b => b
  | JNum n => negb (n =? 0)
  | JStr s => negb (s =? "")%string
  end.

(** [a === b] on primitives. *)
Definition strict_eq (a b : jsval) : bool :=
  match a, b with
  | JUndefined, JUndefined => true
  | JNull, JNull => true
  | JBool x, JBool y => Bool.eqb x y
  | JNum x, JNum y => x =? y
  | JStr x, JStr y => (x =? y)%string
  | _, _ => false
  end.

Definition Z_to_string (n : Z) : string :=
  NilZero.string_of_int (Z.to_int n).

(** [String(v)], the coercion applied by [+] next to a string and by
    [split] to its separator. *)
Definition to_string (v : jsval) : string :=
  match v with
  | JUndefined => "undefined"
  | JNull => "null"
  | JBool true => "true"
  | JBool false => "false"
  | JNum n => Z_to_string n
  | JNaN => "NaN"
  | JStr s => s
  end.

Definition is_digit (c : ascii) : bool :=
  let n := nat_of_ascii c in (48 <=? n)%nat && (n <=? 57)%nat.

Definition digit_val (c : ascii) : Z := Z.of_nat (nat_of_ascii c) - 48.

(** Value of a run of decimal digits, most significant first
    ([parseInt(s, 10)] on such a run); [None] when a character is not a
    digit. *)
Fixpoint digits_val (acc : Z) (s : string) : option Z :=
  match s with
  | EmptyString => Some acc
  | String c s' =>
      if is_digit c then digits_val (10 * acc + digit_val c) s' else None
  end.

(** What a value is worth as a number in a comparison: not a number, a
    finite number by its exact value, or an infinity. *)
Inductive number : Type :=
| NaN
| Finite (q : Q)
| Infinite (positive : bool).

(** [Number(s)] for a string [s], a JavaScript built-in: the value of the
    numeric literal that [s] holds (blanks around it dropped; decimal with
    fraction and exponent, hexadecimal, octal, binary, [Infinity]), 0 for an
    empty or blank text, [NaN] for any other text. *)
Class NumberOps : Type := {
  string_to_number : string -> number
}.

(** [Number(v)] of a value that is not a string, which is an integer or
    [NaN] ([None]).  A string is not converted here: [add] concatenates
    when it sees one, and [to_number] asks [string_to_number]. *)
Definition primitive_number (v : jsval) : option Z :=
  match v with
  | JUndefined | JNaN | JStr _ => None
  | JNull => Some 0
  | JBool b => Some (if b then 1 else 0)
  | JNum n => Some n
  end.

(** [Number(v)] *)
Definition to_number `{NumberOps} (v : jsval) : number :=
  match v with
  | JStr s => string_to_number s
  | _ =>
      match primitive_number v with
      | Some n => Finite (inject_Z n)
      | None => NaN
      end
  end.

(** [n >= v] for an integer [n]: false as soon as [v] is [NaN]. *)
Definition num_ge `{NumberOps} (n : Z) (v : jsval) : bool :=
  match to_number v with
  | NaN => false
  | Finite q => Qle_bool q (inject_Z n)
  | Infinite positive => negb positive
  end.

(** [a + b]: concatenation when an operand is a string, numeric addition
    otherwise. *)
Definition add (a b : jsval) : jsval :=
  match a, b with
  | JStr _, _ | _, JStr _ => JStr (to_string a ++ to_string b)
  | _, _ =>
      match primitive_number a, primitive_number b with
      | Some x, Some y => JNum (x + y)
      | _, _ => JNaN
      end
  end.

(** [arr[k]]: [undefined] past the end. *)
Definition item (arr : list jsval) (k : nat) : jsval := nth k arr JUndefined.

Definition chars (s : string) : list string :=
  map (fun c => String c EmptyString) (list_ascii_of_string s).

(** Scan for a non-empty separator.  [skip] counts the characters of an
    occurrence that remain to be dropped, [cur] is the piece being
    collected. *)
Fixpoint split_scan (sep s : string) (skip : nat) (cur : string)
    : list string :=
  match s with
  | EmptyString => [cur]
  | String c s' =>
      match skip with
      | S k => split_scan sep s' k cur
      | O =>
          if prefix sep s
          then cur :: split_scan sep s' (String.length sep - 1) ""
          else split_scan sep s' 0 (cur ++ String c "")%string
      end
  end.

(** [s.split(sep)] on a string [s]: [undefined] does not split, the empty
    separator splits into characters, any other separator is coerced to a
    string and looked for from left to right. *)
Definition split (s : string) (sep : jsval) : list string :=
  match sep with
  | JUndefined => [s]
  | _ =>
      let d := to_string sep in
      if (d =? "")%string then chars s else split_scan d s 0 ""
  end.

(** [JSON.parse(JSON.stringify(arr))] on an array of primitives: inside an
    array [undefined] and [NaN] are written as [null]. *)
Definition json_copy (arr : list jsval) : list jsval :=
  map (fun v => match v with JUndefined | JNaN => JNull | _ => v end) arr.

(** The integers from which [n + 1] is no longer exact, 2^53 and beyond:
    below it, [n++] adds exactly one. *)
Definition safe_limit : Z := 2 ^ 53.

End JS.
Import JS.

(** ** Data model *)

(** Modelled from the spec: the Value Container of section 3 and its
    interface of section 6 (class [Dish], not under src/).  It holds exactly
    one current value, convertible between a small set of representations;
    the flow control code reads it with [get(type) -> value] and writes it
    with [set(value, type)].  A read may convert the content to the
    requested representation, so [dish_get] returns the container after the
    read with the value.  The value-type tags ([inputType], [outputType],
    [Dish.STRING]) are declared outside src/ as well. *)
Class DishOps : Type := {
  Dish : Type;
  dtype : Type;
  (** [Dish.STRING], the tag of the textual representation. *)
  STRING : dtype;
  (** [new Dish()] *)
  dish_new : Dish;
  (** [dish.get(type)] *)
  dish_get : dtype -> Dish -> jsval * Dish;
  (** [dish.set(value, type)] *)
  dish_set : jsval -> dtype -> Dish -> Dish
}.

(** Pattern search of [String.prototype.search], a JavaScript built-in. *)
Class RegexOps : Type := {
  (** [text.search(pattern)]: the index of the first match or -1; [None]
      when the pattern does not compile (a SyntaxError is thrown). *)
  regex_search : string -> jsval -> option Z
}.

(** Whether [dish.get(type)] hands its value back in a promise, which the
    caller sees only once it has awaited it (section 6 of the specification:
    [get] may suspend), or hands back the value itself. *)
Class AwaitOps : Type := {
  get_suspends : bool
}.

Section DataModel.
Context `{DishOps}.

(** The fields of an operation that the flow control code reads. *)
Record Operation : Type := {
  name : string;
  inputType : dtype;
  outputType : dtype;
  ingValues : list jsval;
  disabled : bool
}.

Definition set_ingValues (ings : list jsval) (op : Operation) : Operation :=
  {| name := name op; inputType := inputType op; outputType := outputType op;
     ingValues := ings; disabled := disabled op |}.

(** The execution state handed to every flow control operation. *)
Record State : Type := {
  progress : Z;
  dish : Dish;
  opList : list Operation;
  numJumps : Z;
  numRegisters : Z;
  forkOffset : Z
}.

Definition set_progress (p : Z) (s : State) : State :=
  {| progress := p; dish := dish s; opList := opList s;
     numJumps := numJumps s; numRegisters := numRegisters s;
     forkOffset := forkOffset s |}.

Definition set_dish (d : Dish) (s : State) : State :=
  {| progress := progress s; dish := d; opList := opList s;
     numJumps := numJumps s; numRegisters := numRegisters s;
     forkOffset := forkOffset s |}.

Definition set_opList (l : list Operation) (s : State) : State :=
  {| progress := progress s; dish := dish s; opList := l;
     numJumps := numJumps s; numRegisters := numRegisters s;
     forkOffset := forkOffset s |}.

Definition set_numJumps (n : Z) (s : State) : State :=
  {| progress := progress s; dish := dish s; opList := opList s;
     numJumps := n; numRegisters := numRegisters s;
     forkOffset := forkOffset s |}.

Definition set_forkOffset (n : Z) (s : State) : State :=
  {| progress := progress s; dish := dish s; opList := opList s;
     numJumps := numJumps s; numRegisters := numRegisters s;
     forkOffset := n |}.

(** What was thrown. *)
Inductive cause : Type :=
| TypeError
| SyntaxError
| OperationError (message : string).

(** A thrown value: its cause and the [progress] property that the
    interpreter attaches when a failure leaves it. *)
Record error : Type := {
  err_cause : cause;
  err_progress : option Z
}.

(** How a call on the state object ends: it returns the state, or it
    throws and leaves the state object as mutated so far, or a collaborator
    it waits for never returns. *)
Inductive result : Type :=
| Returned (s : State)
| Threw (e : error) (s : State)
| Diverged.

(** [r] followed by [f] on the state that [r] returned. *)
Definition and_then (r : result) (f : State -> result) : result :=
  match r with
  | Returned s => f s
  | _ => r
  end.

(** [opList[i]] for a number [i]: [None] stands for [undefined]. *)
Definition op_at (l : list Operation) (i : Z) : option Operation :=
  if i <? 0 then None else nth_error l (Z.to_nat i).

(** Modelled from the spec: the outcome of
    [execute(container, startCursor, executionState)] of section 6 (class
    [Recipe], not under src/): an exit cursor, or a failure carrying the
    exit cursor and its cause.  Each outcome comes with what the run left
    in the objects it was given: the child container, and the ingredient
    values of the operations, which are the mutable part of an Operation
    (section 3). *)
Inductive exec_result : Type :=
| ExecReturned (exitProgress : Z) (d : Dish) (ings : list (list jsval))
| ExecThrew (exitProgress : Z) (c : cause) (d : Dish) (ings : list (list jsval))
| ExecDiverged.

(** Modelled from the spec: the recursive entry point [recipe.execute(dish,
    startFrom, forkState)] over the operations added to the recipe.  The
    run seeds a child execution state from the state it is given
    (section 3) and does not write to it. *)
Definition exec_fn : Type :=
  list Operation -> Dish -> Z -> State -> exec_result.

End DataModel.

Arguments Operation {_}.
Arguments State {_}.
Arguments result {_}.
Arguments exec_result {_}.
Arguments exec_fn {_}.

(** ** The flow control operations *)

Module FlowControl.
Section Ops.
Context `{DishOps} `{RegexOps} `{NumberOps} `{AwaitOps}.

Definition type_error : error :=
  {| err_cause := TypeError; err_progress := None |}.

(** The loop of [_getLabelIndex], at position [o] of the list. *)
Fixpoint label_scan (label : jsval) (l : list Operation) (o : Z) : Z :=
  match l with
  | [] => -1
  | operation :: rest =>
      if (name operation =? "Label")%string
         && strict_eq label (item (ingValues operation) 0)
      then o
      else label_scan label rest (o + 1)
  end.

(** [_getLabelIndex(name, state)] *)
Definition _getLabelIndex (label : jsval) (state : State) : Z :=
  label_scan label (opList state) 0.

(** [state.progress = jmpIndex; state.numJumps++] *)
Definition jump_to (jmpIndex : Z) (state : State) : State :=
  set_numJumps (numJumps state + 1) (set_progress jmpIndex state).

(** [runJump(state)] *)
Definition runJump (state : State) : result :=
  match op_at (opList state) (progress state) with
  | None => Threw type_error state
  | Some op =>
      let ings := ingValues op in
      let label := item ings 0 in
      let maxJumps := item ings 1 in
      let jmpIndex := _getLabelIndex label state in
      if num_ge (numJumps state) maxJumps || (jmpIndex =? -1)
      then Returned state
      else Returned (jump_to jmpIndex state)
  end.

(** [runCondJump(state)].  In [await dish.get(Dish.STRING).search(regexStr)
    > -1] the method [search] is looked up on what [dish.get] hands back,
    before anything is awaited: on a promise, which has no [search], the
    call throws a TypeError; on the value itself it is the search of a
    text. *)
Definition runCondJump (state : State) : result :=
  match op_at (opList state) (progress state) with
  | None => Threw type_error state
  | Some op =>
      let ings := ingValues op in
      let regexStr := item ings 0 in
      let invert := item ings 1 in
      let label := item ings 2 in
      let maxJumps := item ings 3 in
      let jmpIndex := _getLabelIndex label state in
      if num_ge (numJumps state) maxJumps || (jmpIndex =? -1)
      then Returned state
      else if negb (strict_eq regexStr (JStr ""))
      then
        let (text, d) := dish_get STRING (dish state) in
        let state1 := set_dish d state in
        if get_suspends then Threw type_error state1
        else
          match text with
          | JStr t =>
              match regex_search t regexStr with
              | None =>
                  Threw {| err_cause := SyntaxError; err_progress := None |}
                    state1
              | Some found =>
                  let strMatch := found >? -1 in
                  if (negb (truthy invert) && strMatch)
                     || (truthy invert && negb strMatch)
                  then Returned (jump_to jmpIndex state1)
                  else Returned state1
              end
          | _ => Threw type_error state1
          end
      else Returned state
  end.

(** [runReturn(state)] *)
Definition runReturn (state : State) : result :=
  Returned (set_progress (Z.of_nat (List.length (opList state))) state).

(** [runComment(state)] *)
Definition runComment (state : State) : result := Returned state.

(** [runMerge(state)] *)
Definition runMerge (state : State) : result := Returned state.

(** *** Register substitution *)

Definition backslash : ascii := ascii_of_nat 92.

(** The longest run of backslashes that starts [s], and what follows. *)
Fixpoint leading_slashes (s : string) : string * string :=
  match s with
  | String c s' =>
      if Ascii.eqb c backslash
      then let (run, r) := leading_slashes s' in (String c run, r)
      else (EmptyString, s)
  | EmptyString => (EmptyString, EmptyString)
  end.

(** A match, at the start of [s], of the pattern of [replaceRegister]: a
    greedy run of backslashes (group [slashes]), the two characters [$R],
    then one or two decimal digits, two when two are there (group
    [regNum]). *)
Definition match_token (s : string) : option (string * string) :=
  let (slashes, r) := leading_slashes s in
  match r with
  | String c1 (String c2 (String d1 r')) =>
      if Ascii.eqb c1 "$" && Ascii.eqb c2 "R" && is_digit d1
      then match r' with
           | String d2 _ =>
               if is_digit d2
               then Some (slashes, String d1 (String d2 ""))
               else Some (slashes, String d1 "")
           | EmptyString => Some (slashes, String d1 "")
           end
      else None
  | _ => None
  end.

(** [match.slice(1)] *)
Definition slice1 (s : string) : string :=
  match s with
  | String _ r => r
  | EmptyString => EmptyString
  end.

(** The replacement callback of [replaceRegister], on the groups of one
    match.  [parseInt(regNum, 10)] is the value of the captured digits. *)
Definition replacer (numRegisters : Z) (registers : list jsval)
    (slashes regNum : string) : string :=
  let matched := (slashes ++ "$R" ++ regNum)%string in
  match digits_val 0 regNum with
  | Some n =>
      let index := n + 1 in
      if (index <=? numRegisters)
         || (index >=? numRegisters + Z.of_nat (List.length registers))
      then matched
      else if negb (Nat.eqb (Nat.modulo (String.length slashes) 2) 0)
      then slice1 matched
      else to_string
             (add (JStr slashes)
                  (item registers (Z.to_nat (index - numRegisters))))
  | None =>
      if negb (Nat.eqb (Nat.modulo (String.length slashes) 2) 0)
      then slice1 matched
      else to_string (add (JStr slashes) JUndefined)
  end.

(** The global replace: at each position the pattern is tried; a match
    is replaced and the scan resumes after it ([skip] counts the matched
    characters still to pass), any other character is copied. *)
Fixpoint replace_scan (numRegisters : Z) (registers : list jsval)
    (s : string) (skip : nat) : string :=
  match s with
  | EmptyString => EmptyString
  | String c s' =>
      match skip with
      | S k => replace_scan numRegisters registers s' k
      | O =>
          match match_token s with
          | Some (slashes, regNum) =>
              String.append
                (replacer numRegisters registers slashes regNum)
                (replace_scan numRegisters registers s'
                   (String.length slashes + 2 + String.length regNum - 1))
          | None => String c (replace_scan numRegisters registers s' 0)
          end
      end
  end.

(** [replaceRegister(str)], for [state.numRegisters] and the match array
    [registers] of the enclosing [runRegister]. *)
Definition replaceRegister (numRegisters : Z) (registers : list jsval)
    (str : string) : string :=
  replace_scan numRegisters registers str 0.

(** *** Fork *)

(** The operations after the fork up to the first enabled Merge, from the
    operations [l] that follow the fork. *)
Fixpoint sub_ops (l : list Operation) : list Operation :=
  match l with
  | [] => []
  | op :: rest =>
      if (name op =? "Merge")%string && negb (disabled op)
      then []
      else op :: sub_ops rest
  end.

(** The baseline assignment of each tranche:
    [op.ingValues = JSON.parse(JSON.stringify(ingValues[i]))]. *)
Definition reset_ings (subOpList : list Operation)
    (ingValues : list (list jsval)) : list Operation :=
  map (fun p => set_ingValues (json_copy (snd p)) (fst p))
      (combine subOpList ingValues).

(** The operations of [subOpList] with the ingredient values that a run
    left in them. *)
Fixpoint write_ings (subOpList : list Operation)
    (ings : list (list jsval)) : list Operation :=
  match subOpList, ings with
  | op :: ops, i :: is' => set_ingValues i op :: write_ings ops is'
  | _, _ => subOpList
  end.

(** [opList] seen through the operation objects it shares with
    [subOpList], which sit right after position [progress]. *)
Definition shared (opList : list Operation) (progress : Z)
    (subOpList : list Operation) : list Operation :=
  let start := Z.to_nat (progress + 1) in
  firstn start opList ++ subOpList
    ++ skipn (start + List.length subOpList) opList.

(** How the loop over the tranches ends. *)
Inductive loop_result : Type :=
| LoopDone (output : string) (progress : Z) (ings : list (list jsval))
| LoopThrew (e : error) (ings : list (list jsval))
| LoopDiverged.

Section Tranches.
Variable execute : exec_fn.
(** The state object while the tranches run. *)
Variable state : State.
Variable subOpList : list Operation.
Variable ingValues : list (list jsval).
Variables inputType outputType : dtype.
Variables mergeDelim ignoreErrors : jsval.

(** [const dish = new Dish(); dish.set(inputs[i], inputType)] *)
Definition tranche_dish (input : string) : Dish :=
  dish_set (JStr input) inputType dish_new.

(** [recipe.execute(dish, 0, state)] on the tranche [input], after the
    baseline assignment. *)
Definition run_tranche (input : string) : exec_result :=
  execute (reset_ings subOpList ingValues) (tranche_dish input) 0 state.

(** [await dish.get(outputType) + mergeDelim], as appended to [output]. *)
Definition tranche_text (dish : Dish) : string :=
  to_string (add (fst (dish_get outputType dish)) mergeDelim).

(** The loop [for (i = 0; i < inputs.length; i++)] over the tranches that
    remain, with the current [output] and [progress]; [ings] is what the
    operations of [subOpList] hold. *)
Fixpoint run_tranches (inputs : list string) (output : string)
    (progress : Z) (ings : list (list jsval)) : loop_result :=
  match inputs with
  | [] => LoopDone output progress ings
  | input :: rest =>
      match run_tranche input with
      | ExecReturned p dish ings' =>
          run_tranches rest (output ++ tranche_text dish) p ings'
      | ExecThrew p c dish ings' =>
          if negb (truthy ignoreErrors)
          then LoopThrew {| err_cause := c; err_progress := Some p |} ings'
          else run_tranches rest (output ++ tranche_text dish) (p + 1) ings'
      | ExecDiverged => LoopDiverged
      end
  end.
End Tranches.

(** [subOpList]: the operations after the fork, up to the first enabled
    Merge. *)
Definition fork_subOpList (state : State) : list Operation :=
  sub_ops (skipn (Z.to_nat (progress state + 1)) (opList state)).

(** [state.forkOffset += state.progress + 1] *)
Definition fork_offset (state : State) : State :=
  set_forkOffset (forkOffset state + (progress state + 1)) state.

(** The state object when the operation objects of [subOpList] hold
    [sub]. *)
Definition with_sub (state : State) (sub : list Operation) : State :=
  set_opList (shared (opList state) (progress state) sub) state.

(** [inputs]: [input.split(splitDelim)] when [input] is truthy, no tranche
    otherwise.  [None] stands for the TypeError of a truthy [input] that is
    not a string and has no [split]. *)
Definition fork_inputs (input splitDelim : jsval) : option (list string) :=
  if truthy input
  then match input with
       | JStr s => Some (split s splitDelim)
       | _ => None
       end
  else Some [].

(** The end of [runFork] after the loop [r] over the tranches, on the state
    object [state2]: [state.dish.set(output, outputType);
    state.progress += progress; return state], unless the loop threw. *)
Definition fork_end (state2 : State) (op : Operation)
    (subOpList : list Operation) (r : loop_result) : result :=
  match r with
  | LoopDone output progress' ings' =>
      let s := with_sub state2 (write_ings subOpList ings') in
      Returned
        (set_progress (progress s + progress')
           (set_dish (dish_set (JStr output) (outputType op) (dish s)) s))
  | LoopThrew e ings' => Threw e (with_sub state2 (write_ings subOpList ings'))
  | LoopDiverged => Diverged
  end.

(** [runFork(state)], over the entry point [execute] of the interpreter. *)
Definition runFork (execute : exec_fn) (state : State) : result :=
  match op_at (opList state) (progress state) with
  | None => Threw type_error state
  | Some op =>
      let (input, d) := dish_get (inputType op) (dish state) in
      let state1 := set_dish d state in
      let ings := ingValues op in
      let splitDelim := item ings 0 in
      let mergeDelim := item ings 1 in
      let ignoreErrors := item ings 2 in
      match fork_inputs input splitDelim with
      | None => Threw type_error state1
      | Some inputs =>
          let subOpList := fork_subOpList state in
          let state2 := fork_offset state1 in
          let baseline := map (fun o => json_copy (ingValues o)) subOpList in
          fork_end state2 op subOpList
            (run_tranches execute
               (with_sub state2 (reset_ings subOpList baseline))
               subOpList baseline (inputType op) (outputType op)
               mergeDelim ignoreErrors
               inputs "" 0 (map (fun o => ingValues o) subOpList))
      end
  end.

End Ops.

(** *** Register *)

(** The regular expression engine behind [new RegExp(pattern, modifiers)]
    and [String.prototype.match], JavaScript built-ins. *)
Class MatchOps : Type := {
  (** [new RegExp(pattern, modifiers)]: [None] when the pattern does not
      compile (a SyntaxError is thrown); otherwise [input =>
      input.match(extractor)] for an extractor without the global flag, whose
      answer is the match array (the whole match, then the groups,
      [undefined] for a group that took no part) or [None] for [null]. *)
  regex_new : jsval -> string -> option (string -> option (list jsval))
}.

Section RegisterOp.
Context `{DishOps} `{MatchOps}.

Definition set_numRegisters (n : Z) (s : State) : State :=
  {| progress := progress s; dish := dish s; opList := opList s;
     numJumps := numJumps s; numRegisters := n;
     forkOffset := forkOffset s |}.

(** The callback of [args.map] on one argument.  [typeof null] is
    ["object"], and [null.hasOwnProperty] throws a TypeError: [None].
    (Objects that carry a [string] field are not among the represented
    values.) *)
Definition rewrite_arg (numRegisters : Z) (registers : list jsval)
    (arg : jsval) : option jsval :=
  match arg with
  | JStr s => Some (JStr (replaceRegister numRegisters registers s))
  | JNull => None
  | _ => Some arg
  end.

(** [args.map(...)], from left to right. *)
Fixpoint rewrite_args (numRegisters : Z) (registers : list jsval)
    (args : list jsval) : option (list jsval) :=
  match args with
  | [] => Some []
  | arg :: rest =>
      match rewrite_arg numRegisters registers arg with
      | None => None
      | Some arg' =>
          match rewrite_args numRegisters registers rest with
          | None => None
          | Some rest' => Some (arg' :: rest')
          end
      end
  end.

(** The loop over the operations [ops] after the cursor: a disabled
    operation is passed over, the arguments of an enabled one are rewritten
    and stored with [setIngValues].  The boolean tells that the rewriting of
    an operation threw; the operations before it are already rewritten, it
    and the ones after it are not. *)
Fixpoint rewrite_ops (numRegisters : Z) (registers : list jsval)
    (ops : list Operation) : list Operation * bool :=
  match ops with
  | [] => ([], false)
  | op :: rest =>
      if disabled op
      then let (rest', threw) := rewrite_ops numRegisters registers rest in
           (op :: rest', threw)
      else
        match rewrite_args numRegisters registers (ingValues op) with
        | None => (op :: rest, true)
        | Some args =>
            let (rest', threw) := rewrite_ops numRegisters registers rest in
            (set_ingValues args op :: rest', threw)
        end
  end.

(** [runRegister(state)].  The publication of the registers to the worker
    host ([self.setRegisters]) has no effect on the state and is left out;
    [setIngValues] stores the values it is given. *)
Definition runRegister (state : State) : result :=
  match op_at (opList state) (progress state) with
  | None => Threw type_error state
  | Some op =>
      let ings := ingValues op in
      let extractorStr := item ings 0 in
      let i := item ings 1 in
      let m := item ings 2 in
      let modifiers :=
        String.append (if truthy i then "i" else "")
          (if truthy m then "m" else "") in
      match regex_new extractorStr modifiers with
      | None =>
          Threw {| err_cause := SyntaxError; err_progress := None |} state
      | Some extractor =>
          let (input, d) := dish_get STRING (dish state) in
          let state1 := set_dish d state in
          match input with
          | JStr text =>
              match extractor text with
              | None => Returned state1
              | Some registers =>
                  let start := Z.to_nat (progress state + 1) in
                  let (later, threw) :=
                    rewrite_ops (numRegisters state) registers
                      (skipn start (opList state)) in
                  let state2 :=
                    set_opList (firstn start (opList state) ++ later) state1 in
                  if threw
                  then Threw type_error state2
                  else
                    Returned
                      (set_numRegisters
                         (numRegisters state
                          + (Z.of_nat (List.length registers) - 1))
                         state2)
              end
          | _ => Threw type_error state1
          end
      end
  end.

End RegisterOp.
End FlowControl.

(** ** The interpreter loop *)

Module Recipe.
Section Loop.
Context `{DishOps} `{RegexOps} `{NumberOps} `{AwaitOps}.

(** The transform of every operation that is not one of the flow control
    operations embedded above (ordinary operations, and Register, whose
    capture depends on the regular expression engine). *)
Variable other : Operation -> State -> result.

(** Modelled from the spec: the outcome of a run as section 6 gives it to
    the caller of [execute]: the resulting cursor on success, the cursor at
    the point of failure and the cause otherwise, with the child container
    and the ingredient values as the run left them. *)
Definition outcome (r : result) : exec_result :=
  match r with
  | Returned s => ExecReturned (progress s) (dish s) (map ingValues (opList s))
  | Threw e s =>
      ExecThrew (match err_progress e with Some p => p | None => progress s end)
        (err_cause e) (dish s) (map ingValues (opList s))
  | Diverged => ExecDiverged
  end.

(** Modelled from the spec: the child execution state of a run over [ops]
    and [dish] from cursor [startFrom] (section 3): its own cursor and
    operation list, a jump counter at zero, the register counter and the
    fork offset seeded from the state [forkState] of the caller. *)
Definition child_state (ops : list Operation) (dish : Dish) (startFrom : Z)
    (forkState : State) : State :=
  {| progress := startFrom; dish := dish; opList := ops; numJumps := 0;
     numRegisters := numRegisters forkState;
     forkOffset := forkOffset forkState |}.

(** Modelled from the spec: the dispatch of section 2, which hands the
    state to the primitive that corresponds to the operation at the cursor;
    [execute] is the entry point that Fork calls back. *)
Definition dispatch (execute : exec_fn) (op : Operation) (state : State)
    : result :=
  if (name op =? "Fork")%string then FlowControl.runFork execute state
  else if (name op =? "Merge")%string then FlowControl.runMerge state
  else if (name op =? "Jump")%string then FlowControl.runJump state
  else if (name op =? "Conditional Jump")%string
  then FlowControl.runCondJump state
  else if (name op =? "Return")%string then FlowControl.runReturn state
  else if (name op =? "Comment")%string then FlowControl.runComment state
  else if (name op =? "Label")%string then FlowControl.runComment state
  else other op state.

(** Modelled from the spec: the interpreter loop of section 2 (class
    [Recipe], not under src/).  It hands the state to the primitive of the
    operation at the cursor, takes the state that the primitive returns and
    continues with the next instruction, until the cursor reaches the end of
    the list or a failure propagates, which then carries the cursor at the
    point of failure (section 6).  A disabled operation takes no part in the
    run.  [fuel] bounds the number of instructions; a run that needs more is
    [Diverged]. *)
Fixpoint run (fuel : nat) (state : State) : result :=
  match fuel with
  | O => Diverged
  | S fuel' =>
      if Z.of_nat (List.length (opList state)) <=? progress state
      then Returned state
      else
        match op_at (opList state) (progress state) with
        | None => Threw FlowControl.type_error state
        | Some op =>
            if disabled op
            then run fuel' (set_progress (progress state + 1) state)
            else
              let execute ops dish startFrom forkState :=
                outcome
                  (run fuel' (child_state ops dish startFrom forkState)) in
              match dispatch execute op state with
              | Returned s => run fuel' (set_progress (progress s + 1) s)
              | Threw e s =>
                  Threw {| err_cause := err_cause e;
                           err_progress := Some (progress state) |} s
              | Diverged => Diverged
              end
        end
  end.

(** Modelled from the spec: [execute(container, startCursor,
    executionState)] of section 6, with at most [fuel] instructions. *)
Definition execute (fuel : nat) : exec_fn :=
  fun ops dish startFrom forkState =>
    outcome (run fuel (child_state ops dish startFrom forkState)).

End Loop.
End Recipe.

(** ** Instances used to run the operations on concrete recipes *)

(** A container with a single, textual representation: reading it converts
    nothing and returns what was last written. *)
#[export] Instance TextDish : DishOps := {|
  Dish := jsval;
  dtype := unit;
  STRING := tt;
  dish_new := JNull;
  dish_get := fun _ d => (d, d);
  dish_set := fun v _ _ => v
|}.

(** Search for patterns without metacharacters, which match where the
    pattern text occurs. *)
#[export] Instance LiteralSearch : RegexOps := {|
  regex_search := fun text pattern =>
    match String.index 0 (to_string pattern) text with
    | Some i => Some (Z.of_nat i)
    | None => Some (-1)
    end
|}.

(** A stand-in for [Number] on strings, for running the jumps on concrete
    recipes only; the properties of the jumps hold of every [NumberOps].
    It gives the value of the empty text and of the unsigned decimal
    literals without exponent, with or without a fraction, as a rational,
    which is what [Number] gives where a double holds that value (as for
    2.5); every other text it reads as [NaN], which [Number] does not. *)
Fixpoint decimal_literal (whole : Z) (s : string) : number :=
  match s with
  | EmptyString => Finite (inject_Z whole)
  | String c s' =>
      if is_digit c then decimal_literal (10 * whole + digit_val c) s'
      else if Ascii.eqb c "."
      then match digits_val 0 s' with
           | Some f =>
               Finite
                 (inject_Z whole
                  + Qmake f (Pos.pow 10 (Pos.of_nat (String.length s'))))
           | None => NaN
           end
      else NaN
  end.

#[export] Instance DecimalLiterals : NumberOps := {|
  string_to_number := fun s =>
    match s with
    | EmptyString => Finite 0
    | String c _ => if is_digit c then decimal_literal 0 s else NaN
    end
|}.

(** The container whose [get] hands back a promise, as the code that awaits
    every other call of it expects. *)
#[export] Instance PromisedGet : AwaitOps := {| get_suspends := true |}.

(** The container whose [get] hands back the value itself. *)
Definition DirectGet : AwaitOps := {| get_suspends := false |}.

(** An enabled operation of the text container. *)
Definition mk_op (nm : string) (ings : list jsval) : Operation :=
  {| name := nm; inputType := tt; outputType := tt; ingValues := ings;
     disabled := false |}.

(** A disabled operation of the text container. *)
Definition mk_disabled (nm : string) (ings : list jsval) : Operation :=
  {| name := nm; inputType := tt; outputType := tt; ingValues := ings;
     disabled := true |}.

(** The state of a top-level run at cursor [p]. *)
Definition mk_state (p : Z) (d : jsval) (ops : list Operation) (jumps : Z)
    : State :=
  {| progress := p; dish := d; opList := ops; numJumps := jumps;
     numRegisters := 0; forkOffset := 0 |}.

(** No operation outside the flow control ones. *)
Definition no_other (op : Operation) (s : State) : result :=
  Threw {| err_cause := OperationError "unknown operation";
           err_progress := None |} s.

(** ** Vocabulary of the properties *)

Section Vocabulary.
Context `{DishOps}.

(** An enabled operation whose input and output carry the tag [ty]. *)
Definition flow_op (nm : string) (ty : dtype) (ings : list jsval)
    : Operation :=
  {| name := nm; inputType := ty; outputType := ty; ingValues := ings;
     disabled := false |}.

(** A recipe whose unconditional jump targets itself: the label [l] sits
    right before a jump to [l] with budget [m], so that a taken jump is
    followed by the same jump. *)
Definition self_jump (ty : dtype) (l : string) (m : Z) : list Operation :=
  [flow_op "Label" ty [JStr l]; flow_op "Jump" ty [JStr l; JNum m]].

(** The self-targeting recipe with any value [v] as the budget of its
    jump. *)
Definition budget_recipe (ty : dtype) (l : string) (v : jsval)
    : list Operation :=
  [flow_op "Label" ty [JStr l]; flow_op "Jump" ty [JStr l; v]].

(** The state of a run of [budget_recipe], at cursor [p] after [k]
    jumps. *)
Definition budget_state (d : Dish) (ty : dtype) (l : string) (v : jsval)
    (nr fo p k : Z) : State :=
  {| progress := p; dish := d; opList := budget_recipe ty l v; numJumps := k;
     numRegisters := nr; forkOffset := fo |}.

(** Every operation named Label carries its name, which is not
    [undefined], and no other ingredient. *)
Definition ordinary_labels (l : list Operation) : bool :=
  forallb
    (fun op =>
       negb (name op =? "Label")%string
       || match ingValues op with
          | [n] => negb (strict_eq n JUndefined)
          | _ => false
          end) l.

(** The test of [_getLabelIndex] on one operation. *)
Definition is_label_for (label : jsval) (op : Operation) : bool :=
  (name op =? "Label")%string && strict_eq label (item (ingValues op) 0).

End Vocabulary.

(** A run of [k] backslashes. *)
Fixpoint backslashes (k : nat) : string :=
  match k with
  | O => EmptyString
  | S k' => String FlowControl.backslash (backslashes k')
  end.

Definition starts_with_digit (s : string) : bool :=
  match s with
  | String c _ => is_digit c
  | EmptyString => false
  end.

(** [d] is what the pattern captures as its number in front of [rest]: two
    digits, or one digit that no digit follows. *)
Definition captured_digits (d rest : string) : bool :=
  match d with
  | String d1 EmptyString => is_digit d1 && negb (starts_with_digit rest)
  | String d1 (String d2 EmptyString) => is_digit d1 && is_digit d2
  | _ => false
  end.

(** Text in which no token can start: neither a backslash nor a dollar
    sign. *)
Fixpoint plain (s : string) : bool :=
  match s with
  | EmptyString => true
  | String c s' =>
      negb (Ascii.eqb c FlowControl.backslash) && negb (Ascii.eqb c "$")
      && plain s'
  end.

(** The number of groups of a match array, which starts with the whole
    match. *)
Definition groupCount (registers : list jsval) : Z :=
  Z.of_nat (List.length registers) - 1.


Section ForkVocabulary.
Context `{DishOps}.

(** [ingValues]: the baseline copy of the ingredient values of the
    sub-operations. *)
Definition fork_baseline (state : State) : list (list jsval) :=
  map (fun o => json_copy (ingValues o)) (FlowControl.fork_subOpList state).

(** The state object that every tranche of a fork on [state] runs with: [d]
    is the outer container as the read of the input left it, the fork offset
    is incremented and the sub-operations hold their baseline values. *)
Definition tranche_state (state : State) (d : Dish) : State :=
  FlowControl.with_sub (FlowControl.fork_offset (set_dish d state))
    (FlowControl.reset_ings (FlowControl.fork_subOpList state)
       (fork_baseline state)).

(** The run of the sub-recipe of the fork [op] at the cursor of [state] over
    the tranche [input]. *)
Definition fork_tranche (execute : exec_fn) (state : State) (op : Operation)
    (d : Dish) (input : string) : exec_result :=
  FlowControl.run_tranche execute (tranche_state state d)
    (FlowControl.fork_subOpList state) (fork_baseline state) (inputType op)
    input.

Definition returns (r : exec_result) : bool :=
  match r with
  | ExecReturned _ _ _ => true
  | _ => false
  end.

Definition terminates (r : exec_result) : bool :=
  match r with
  | ExecDiverged => false
  | _ => true
  end.

(** The loop goes on after a tranche that returned, and after one that
    failed when [ignoreErrors] is set. *)
Definition passes (ignoreErrors : jsval) (r : exec_result) : bool :=
  match r with
  | ExecReturned _ _ _ => true
  | ExecThrew _ _ _ _ => truthy ignoreErrors
  | ExecDiverged => false
  end.

(** What a tranche appends to the output: the value of its child container,
    read under [outputType], followed by the merge delimiter. *)
Definition contribution (outputType : dtype) (mergeDelim : jsval)
    (r : exec_result) : string :=
  match r with
  | ExecReturned _ d _ | ExecThrew _ _ d _ =>
      FlowControl.tranche_text outputType mergeDelim d
  | ExecDiverged => EmptyString
  end.

(** The progress recorded after a tranche: its exit progress, or the exit
    progress of its failure plus one. *)
Definition recorded_progress (before : Z) (r : exec_result) : Z :=
  match r with
  | ExecReturned p _ _ => p
  | ExecThrew p _ _ _ => p + 1
  | ExecDiverged => before
  end.

(** The ingredient values that a tranche leaves in the sub-operations. *)
Definition left_ings (before : list (list jsval)) (r : exec_result)
    : list (list jsval) :=
  match r with
  | ExecReturned _ _ i | ExecThrew _ _ _ i => i
  | ExecDiverged => before
  end.

Definition concat_all (l : list string) : string :=
  fold_right String.append EmptyString l.

(** The value read from the container is text, or is falsy. *)
Definition text_or_falsy (v : jsval) : bool :=
  match v with
  | JStr _ => true
  | _ => negb (truthy v)
  end.

End ForkVocabulary.

(** A sub-recipe step for the text container that fails on the tranche
    ["b"] and leaves every other tranche as it is. *)
Definition fails_on_b (op : Operation) (s : State) : result :=
  if strict_eq (dish s) (JStr "b")
  then Threw {| err_cause := OperationError "b is refused";
                err_progress := None |} s
  else Returned s.

(** The recipe [Fork(",", ";", ignoreErrors); Check; Merge] of the text
    container, whose sub-recipe is the single operation [Check]. *)
Definition checked_fork (ignoreErrors : bool) : list Operation :=
  [mk_op "Fork" [JStr ","; JStr ";"; JBool ignoreErrors]; mk_op "Check" [];
   mk_op "Merge" []].

(** The recipe [Fork(",", ";", false); Merge], whose sub-recipe is empty. *)
Definition plain_fork : list Operation :=
  [mk_op "Fork" [JStr ","; JStr ";"; JBool false]; mk_op "Merge" []].

(** The recipe [Label L; Jump(L, m)] of the text container. *)
Definition jump_recipe (m : Z) : list Operation :=
  [mk_op "Label" [JStr "L"]; mk_op "Jump" [JStr "L"; JNum m]].

(** The recipe [Label L; Jump(L, "2.5")], whose budget is the text of a
    number that is not an integer. *)
Definition fraction_jump_recipe : list Operation :=
  [mk_op "Label" [JStr "L"]; mk_op "Jump" [JStr "L"; JStr "2.5"]].

(** The recipe [Label L; Conditional Jump(pattern, invert, L, 5)]. *)
Definition cond_jump_recipe (pattern : string) (invert : bool)
    : list Operation :=
  [mk_op "Label" [JStr "L"];
   mk_op "Conditional Jump" [JStr pattern; JBool invert; JStr "L"; JNum 5]].

(** A recipe whose Label carries more than its name: read as the
    ingredients of a Conditional Jump, they are the pattern [L], no
    inversion and the label [L]. *)
Definition long_label_recipe : list Operation :=
  [mk_op "Label" [JStr "L"; JBool false; JStr "L"];
   mk_op "Conditional Jump" [JStr "a"; JBool false; JStr "L"; JNum 5]].

(** ** Vocabulary of the further properties *)

Section FrameVocabulary.
Context `{DishOps}.

(** Two operations that differ in their ingredient values at most. *)
Definition same_identity (a b : Operation) : Prop :=
  name a = name b /\ inputType a = inputType b
  /\ outputType a = outputType b /\ disabled a = disabled b.

(** The test of the scan of Fork for the end of its body. *)
Definition is_enabled_merge (op : Operation) : bool :=
  (name op =? "Merge")%string && negb (disabled op).

(** What Register leaves in an operation after the cursor when no argument
    makes the rewriting throw: a disabled operation as it is, an enabled one
    with its text arguments substituted. *)
Definition substituted (numRegisters : Z) (registers : list jsval)
    (op : Operation) : Operation :=
  if disabled op then op
  else
    set_ingValues
      (map
         (fun arg =>
            match arg with
            | JStr s =>
                JStr (FlowControl.replaceRegister numRegisters registers s)
            | _ => arg
            end) (ingValues op)) op.

(** No argument of an enabled operation of [ops] is [null]. *)
Definition no_null_arg (ops : list Operation) : bool :=
  forallb
    (fun op =>
       disabled op
       || forallb (fun arg => negb (strict_eq arg JNull)) (ingValues op))
    ops.

End FrameVocabulary.

(** Text without a dollar sign. *)
Fixpoint no_dollar (s : string) : bool :=
  match s with
  | EmptyString => true
  | String c s' => negb (Ascii.eqb c "$") && no_dollar s'
  end.

(** A stand-in for the regular expression engine, for running Register on
    concrete recipes.  It knows two extractors: the pattern of two non-empty
    groups around a dash, which it applies to single-line texts with exactly
    one dash (it declines every other text), and the empty pattern, which
    matches any text with an empty whole match and no group.  It refuses
    every other pattern. *)
#[export] Instance TwoExtractors : FlowControl.MatchOps := {|
  FlowControl.regex_new := fun pattern _ =>
    if strict_eq pattern (JStr "(.+)-(.+)")
    then Some (fun text =>
                 match split text (JStr "-") with
                 | [a; b] =>
                     if (a =? "")%string || (b =? "")%string then None
                     else Some [JStr text; JStr a; JStr b]
                 | _ => None
                 end)
    else if strict_eq pattern (JStr "")
    then Some (fun text => Some [JStr ""])
    else None
|}.

(** The recipe [Register(pattern); To(first); Skip(second); Last(third)] of
    the text container, whose operation [Skip] is disabled. *)
Definition register_recipe (pattern : string) (first second third : jsval)
    : list Operation :=
  [mk_op "Register" [JStr pattern; JBool false; JBool false];
   mk_op "To" [first; JNum 7];
   mk_disabled "Skip" [second];
   mk_op "Last" [third]].
(** ** The definitions on small inputs *)

Example split_on_comma :
  split "a,b,c" (JStr ",") = ["a"; "b"; "c"]
  /\ split "a,,b," (JStr ",") = ["a"; ""; "b"; ""]
  /\ split "abc" (JStr "") = ["a"; "b"; "c"]
  /\ split "abc" JUndefined = ["abc"].
Proof. repeat split. Qed.

Example add_coerces :
  add (JStr "a") JUndefined = JStr "aundefined"
  /\ add JNull (JNum 3) = JNum 3
  /\ add JUndefined (JNum 3) = JNaN.
Proof. repeat split. Qed.

(** The scenario of the specification: the groups of ["12-34"] replace
    [$R0] and [$R1], and an escaped token stays literal. *)
Example substitution_scenario :
  FlowControl.replaceRegister 0 [JStr "12-34"; JStr "12"; JStr "34"]
    "$R0 to $R1" = "12 to 34"
  /\ FlowControl.replaceRegister 0 [JStr "12-34"; JStr "12"; JStr "34"]
       (backslashes 1 ++ "$R0") = "$R0"
  /\ FlowControl.replaceRegister 0 [JStr "12-34"; JStr "12"; JStr "34"]
       "$R012 $R2 $R" = "342 $R2 $R".
Proof. repeat split. Qed.

(** A fork over the empty sub-recipe, then a loop of three jumps. *)
Example fork_then_loop :
  Recipe.run no_other 20
    (mk_state 0 (JStr "a,b,c") (plain_fork ++ jump_recipe 3) 0)
  = Returned
      {| progress := 4; dish := JStr "a;b;c;";
         opList := plain_fork ++ jump_recipe 3; numJumps := 3;
         numRegisters := 0; forkOffset := 1 |}.
Proof. reflexivity. Qed.

(** ** Properties of the label resolver *)

Section LabelResolver.
Context `{DishOps}.

Lemma label_scan_range (label : jsval) (l : list Operation) (o : Z) :
  FlowControl.label_scan label l o = -1
  \/ o <= FlowControl.label_scan label l o < o + Z.of_nat (List.length l).
Proof.
  revert o. induction l as [|op l IH]; intro o; simpl.
  - now left.
  - destruct (_ && _).
    + right. lia.
    + destruct (IH (o + 1)) as [E | R]; [now left | right; lia].
Qed.

(** The resolver never throws: it scans the whole list from position 0 and
    answers -1 exactly when no operation named Label carries the requested
    name. *)
Lemma label_scan_not_found (label : jsval) (l : list Operation) (o : Z) :
  0 <= o ->
  (FlowControl.label_scan label l o = -1
   <-> forallb (fun op => negb (is_label_for label op)) l = true).
Proof.
  revert o. induction l as [|op l IH]; intros o Ho; simpl.
  - tauto.
  - unfold is_label_for at 1.
    destruct (_ && _); simpl.
    + split; [lia | discriminate].
    + apply IH. lia.
Qed.

(** A found index is the position of the first operation named Label that
    carries the requested name, whether that operation is enabled or not. *)
Lemma label_scan_first (label : jsval) (l : list Operation) (o i : Z) :
  0 <= o ->
  FlowControl.label_scan label l o = i -> i <> -1 ->
  exists pre op post,
    l = pre ++ op :: post
    /\ i = o + Z.of_nat (List.length pre)
    /\ is_label_for label op = true
    /\ forallb (fun op' => negb (is_label_for label op')) pre = true.
Proof.
  revert o. induction l as [|op l IH]; intros o Ho E Hi; simpl in E.
  - congruence.
  - destruct (_ && _) eqn:M.
    + exists [], op, l. simpl. repeat split; trivial. lia.
    + destruct (IH (o + 1) ltac:(lia) E Hi)
        as (pre & op' & post & -> & -> & F & P).
      exists (op :: pre), op', post. simpl.
      repeat split; trivial.
      * lia.
      * unfold is_label_for at 1. now rewrite M.
Qed.

End LabelResolver.

(** C3, at the failing input: the resolver answers the position of a
    disabled Label operation, where the specification says that disabled
    markers are ignored and that the answer is "not found"; a jump to that
    label is therefore taken. *)
Theorem getLabelIndex_returns_disabled_label :
  FlowControl._getLabelIndex (JStr "a")
    (mk_state 1 (JStr "")
       [mk_disabled "Label" [JStr "a"]; mk_op "Jump" [JStr "a"; JNum 1]] 0)
  = 0
  /\ FlowControl.runJump
       (mk_state 1 (JStr "")
          [mk_disabled "Label" [JStr "a"]; mk_op "Jump" [JStr "a"; JNum 1]] 0)
     = Returned
         (mk_state 0 (JStr "")
            [mk_disabled "Label" [JStr "a"]; mk_op "Jump" [JStr "a"; JNum 1]]
            1).
Proof. split; reflexivity. Qed.

(** ** Properties of the jump operations *)

Section Jumps.
Context `{DishOps} `{RegexOps} `{NumberOps} `{AwaitOps}.

Lemma op_at_cons_succ (op : Operation) (l : list Operation) (i : Z) :
  0 <= i -> op_at (op :: l) (i + 1) = op_at l i.
Proof.
  intro Hi. unfold op_at.
  destruct (Z.ltb_spec (i + 1) 0); [lia|].
  destruct (Z.ltb_spec i 0); [lia|].
  replace (Z.to_nat (i + 1)) with (S (Z.to_nat i)) by lia.
  reflexivity.
Qed.

(** The no-op branch of [runJump]. *)
Lemma runJump_stays (s : State) (op : Operation) :
  op_at (opList s) (progress s) = Some op ->
  num_ge (numJumps s) (item (ingValues op) 1) = true
  \/ FlowControl._getLabelIndex (item (ingValues op) 0) s = -1 ->
  FlowControl.runJump s = Returned s.
Proof.
  intros Hop Hc. unfold FlowControl.runJump. rewrite Hop.
  destruct Hc as [-> | ->]; [reflexivity|].
  now rewrite orb_true_r.
Qed.

(** The jumping branch of [runJump]. *)
Lemma runJump_jumps (s : State) (op : Operation) :
  op_at (opList s) (progress s) = Some op ->
  num_ge (numJumps s) (item (ingValues op) 1) = false ->
  FlowControl._getLabelIndex (item (ingValues op) 0) s <> -1 ->
  FlowControl.runJump s
  = Returned
      (FlowControl.jump_to
         (FlowControl._getLabelIndex (item (ingValues op) 0) s) s).
Proof.
  intros Hop Hb Hi. unfold FlowControl.runJump. rewrite Hop, Hb.
  destruct (Z.eqb_spec
              (FlowControl._getLabelIndex (item (ingValues op) 0) s) (-1));
    [contradiction | reflexivity].
Qed.

(** Against an integer counter, a finite budget counts as its ceiling. *)
Lemma num_ge_ceiling (k : Z) (v : jsval) (q : Q) :
  to_number v = Finite q ->
  num_ge k v = (Qceiling q <=? k).
Proof.
  intro Hv. unfold num_ge. rewrite Hv.
  pose proof (Qle_ceiling q) as Hup.
  pose proof (Qceiling_lt q) as Hlow.
  destruct (Z.leb_spec (Qceiling q) k) as [Hle | Hgt].
  - apply Qle_bool_iff. eapply Qle_trans; [exact Hup|].
    rewrite <- Zle_Qle. exact Hle.
  - destruct (Qle_bool q (inject_Z k)) eqn:Hb; [|reflexivity].
    apply Qle_bool_iff in Hb. exfalso.
    assert (inject_Z (Qceiling q - 1) < inject_Z k)%Q as Hlt.
    { eapply Qlt_le_trans; [exact Hlow | exact Hb]. }
    rewrite <- Zlt_Qlt in Hlt. lia.
Qed.

Lemma budget_label (d : Dish) (ty : dtype) (l : string) (v : jsval)
    (nr fo p k : Z) :
  FlowControl._getLabelIndex (JStr l) (budget_state d ty l v nr fo p k) = 0.
Proof.
  unfold FlowControl._getLabelIndex. simpl.
  now rewrite String.eqb_refl.
Qed.

(** The loop stops when the cursor is at the end of the list. *)
Lemma run_done (other : Operation -> State -> result) (fuel : nat) (s : State) :
  Z.of_nat (List.length (opList s)) <= progress s ->
  Recipe.run other (S fuel) s = Returned s.
Proof.
  intro Hend. simpl.
  destruct (Z.leb_spec (Z.of_nat (List.length (opList s))) (progress s));
    [reflexivity | lia].
Qed.

(** One instruction of the loop, when the primitive returns. *)
Lemma run_step (other : Operation -> State -> result) (fuel : nat)
    (s s' : State) (op : Operation) :
  progress s < Z.of_nat (List.length (opList s)) ->
  op_at (opList s) (progress s) = Some op ->
  disabled op = false ->
  Recipe.dispatch other (Recipe.execute other fuel) op s = Returned s' ->
  Recipe.run other (S fuel) s
  = Recipe.run other fuel (set_progress (progress s' + 1) s').
Proof.
  intros Hlt Hop Hen Hd. simpl.
  destruct (Z.leb_spec (Z.of_nat (List.length (opList s))) (progress s));
    [lia|].
  rewrite Hop, Hen.
  unfold Recipe.execute in Hd. now rewrite Hd.
Qed.

(** With [n] jumps left before the counter reaches the ceiling [c] of the
    budget, the loop at the jump takes the jump [n] more times and then
    leaves the recipe. *)
Lemma budget_loop (other : Operation -> State -> result) (d : Dish)
    (ty : dtype) (l : string) (v : jsval) (q : Q) (nr fo : Z) (n : nat) :
  to_number v = Finite q ->
  forall (k : Z) (fuel : nat),
    k + Z.of_nat n = Qceiling q -> (n + 2 <= fuel)%nat ->
    Recipe.run other fuel (budget_state d ty l v nr fo 1 k)
    = Returned (budget_state d ty l v nr fo 2 (Qceiling q)).
Proof.
  intro Hv. induction n as [|n IH]; intros k fuel Hm Hf.
  - destruct fuel as [|[|fuel]]; [lia | lia |].
    assert (k = Qceiling q) as -> by lia.
    rewrite (run_step other _ _ (budget_state d ty l v nr fo 1 (Qceiling q))
               (flow_op "Jump" ty [JStr l; v])).
    + apply run_done. simpl. lia.
    + simpl. lia.
    + reflexivity.
    + reflexivity.
    + change (FlowControl.runJump
                (budget_state d ty l v nr fo 1 (Qceiling q))
              = Returned (budget_state d ty l v nr fo 1 (Qceiling q))).
      apply (runJump_stays _ (flow_op "Jump" ty [JStr l; v])); trivial.
      left. change (num_ge (Qceiling q) v = true).
      rewrite (num_ge_ceiling _ v q Hv). apply Z.leb_refl.
  - destruct fuel as [|fuel]; [lia|].
    rewrite (run_step other _ _ (budget_state d ty l v nr fo 0 (k + 1))
               (flow_op "Jump" ty [JStr l; v])).
    + apply (IH (k + 1) fuel); lia.
    + simpl. lia.
    + reflexivity.
    + reflexivity.
    + change (FlowControl.runJump (budget_state d ty l v nr fo 1 k)
              = Returned (budget_state d ty l v nr fo 0 (k + 1))).
      rewrite (runJump_jumps _ (flow_op "Jump" ty [JStr l; v])); trivial.
      * change (item (ingValues (flow_op "Jump" ty [JStr l; v])) 0)
          with (JStr l).
        now rewrite budget_label.
      * change (num_ge k v = false).
        rewrite (num_ge_ceiling _ v q Hv). apply Z.leb_gt. lia.
      * change (item (ingValues (flow_op "Jump" ty [JStr l; v])) 0)
          with (JStr l).
        rewrite budget_label. lia.
Qed.

(** The run of the self-targeting recipe from its first operation. *)
Lemma budget_run (other : Operation -> State -> result) (d : Dish)
    (ty : dtype) (l : string) (v : jsval) (q : Q) (nr fo : Z) (fuel : nat) :
  to_number v = Finite q ->
  (0 <= q)%Q ->
  (Z.to_nat (Qceiling q) + 3 <= fuel)%nat ->
  Recipe.run other fuel (budget_state d ty l v nr fo 0 0)
  = Returned (budget_state d ty l v nr fo 2 (Qceiling q)).
Proof.
  intros Hv Hq Hf.
  assert (0 <= Qceiling q) as Hc.
  { pose proof (Qle_ceiling q) as Hup.
    assert (inject_Z (-1) < inject_Z (Qceiling q))%Q as Hlt.
    { eapply Qlt_le_trans; [|exact Hup].
      eapply Qlt_le_trans; [|exact Hq]. reflexivity. }
    rewrite <- Zlt_Qlt in Hlt. lia. }
  destruct fuel as [|fuel]; [lia|].
  rewrite (run_step other _ _ (budget_state d ty l v nr fo 0 0)
             (flow_op "Label" ty [JStr l])).
  - apply (budget_loop other d ty l v q nr fo (Z.to_nat (Qceiling q)) Hv 0
             fuel); lia.
  - simpl. lia.
  - reflexivity.
  - reflexivity.
  - reflexivity.
Qed.

Lemma op_at_app_length (pre : list Operation) (op : Operation)
    (post : list Operation) :
  op_at (pre ++ op :: post) (Z.of_nat (List.length pre)) = Some op.
Proof.
  unfold op_at. destruct (Z.ltb_spec (Z.of_nat (List.length pre)) 0); [lia|].
  rewrite Nat2Z.id, nth_error_app2 by lia.
  now rewrite Nat.sub_diag.
Qed.

Lemma op_at_In (l : list Operation) (i : Z) (op : Operation) :
  op_at l i = Some op -> In op l.
Proof.
  unfold op_at. destruct (i <? 0); [discriminate|]. apply nth_error_In.
Qed.

Lemma op_at_app_before (pre post : list Operation) (j : Z) :
  0 <= j < Z.of_nat (List.length pre) ->
  op_at (pre ++ post) j = op_at pre j.
Proof.
  intro Hj. unfold op_at. destruct (Z.ltb_spec j 0); [lia|].
  apply nth_error_app1. lia.
Qed.

(** Where a resolved label is: on an operation of the list that passes
    the test of the resolver. *)
Lemma label_landing (label : jsval) (s : State) :
  FlowControl._getLabelIndex label s <> -1 ->
  exists L,
    op_at (opList s) (FlowControl._getLabelIndex label s) = Some L
    /\ In L (opList s)
    /\ is_label_for label L = true.
Proof.
  intro Hi. unfold FlowControl._getLabelIndex in *.
  destruct (label_scan_first label (opList s) 0 _ ltac:(lia) eq_refl Hi)
    as (pre & L & post & Hl & Hpos & HL & _).
  exists L. rewrite Hpos. simpl. rewrite Hl. repeat split; trivial.
  - apply op_at_app_length.
  - apply in_or_app. right. now left.
Qed.

(** C1, as amended: the unconditional Jump is a silent no-op when the jump
    counter has reached [maxJumps] or the label does not resolve, and
    otherwise, the jump counter being in the range where [++] is exact,
    moves the cursor to the resolved index and adds exactly one to the jump
    counter; hence, for every budget whose numeric value [q] is finite, not
    negative and at most 2^53, the recipe whose jump targets itself takes
    that jump exactly ceiling([q]) times and then runs off the end of the
    list: exactly [m] times for every integer budget [m] from 0 to 2^53. *)
Theorem jump_budget :
  (forall (s : State) (op : Operation),
      op_at (opList s) (progress s) = Some op ->
      let label := item (ingValues op) 0 in
      let maxJumps := item (ingValues op) 1 in
      let jmpIndex := FlowControl._getLabelIndex label s in
      (num_ge (numJumps s) maxJumps = true \/ jmpIndex = -1 ->
       FlowControl.runJump s = Returned s)
      /\ (num_ge (numJumps s) maxJumps = false -> jmpIndex <> -1 ->
          - safe_limit <= numJumps s < safe_limit ->
          FlowControl.runJump s
          = Returned {| progress := jmpIndex; dish := dish s;
                        opList := opList s; numJumps := numJumps s + 1;
                        numRegisters := numRegisters s;
                        forkOffset := forkOffset s |}))
  /\ (forall (other : Operation -> State -> result) (d : Dish) (ty : dtype)
         (l : string) (v : jsval) (q : Q) (nr fo : Z) (fuel : nat),
        to_number v = Finite q ->
        (0 <= q)%Q ->
        Qceiling q <= safe_limit ->
        (Z.to_nat (Qceiling q) + 3 <= fuel)%nat ->
        Recipe.run other fuel
          {| progress := 0; dish := d; opList := budget_recipe ty l v;
             numJumps := 0; numRegisters := nr; forkOffset := fo |}
        = Returned
            {| progress := 2; dish := d; opList := budget_recipe ty l v;
               numJumps := Qceiling q; numRegisters := nr;
               forkOffset := fo |})
  /\ (forall (other : Operation -> State -> result) (d : Dish) (ty : dtype)
         (l : string) (m nr fo : Z) (fuel : nat),
        0 <= m <= safe_limit ->
        (Z.to_nat m + 3 <= fuel)%nat ->
        Recipe.run other fuel
          {| progress := 0; dish := d; opList := self_jump ty l m;
             numJumps := 0; numRegisters := nr; forkOffset := fo |}
        = Returned
            {| progress := 2; dish := d; opList := self_jump ty l m;
               numJumps := m; numRegisters := nr; forkOffset := fo |}).
Proof.
  split; [|split].
  - intros s op Hop label maxJumps jmpIndex. split.
    + now apply runJump_stays.
    + intros Hb Hi _. subst label maxJumps jmpIndex.
      now rewrite (runJump_jumps s op).
  - intros other d ty l v q nr fo fuel Hv Hq _ Hf.
    exact (budget_run other d ty l v q nr fo fuel Hv Hq Hf).
  - intros other d ty l m nr fo fuel Hm Hf.
    pose proof (budget_run other d ty l (JNum m) (inject_Z m) nr fo fuel
                  eq_refl) as Hrun.
    rewrite Qceiling_Z in Hrun. apply Hrun; [|exact Hf].
    change 0%Q with (inject_Z 0). rewrite <- Zle_Qle. lia.
Qed.

Lemma strict_eq_empty (v : jsval) :
  strict_eq v (JStr "") = true <-> v = JStr "".
Proof.
  destruct v as [| | b | n | | s]; simpl;
    try (split; [discriminate|discriminate]).
  split.
  - intro E. apply String.eqb_eq in E. now subst.
  - intro E. injection E as ->. reflexivity.
Qed.

(** The no-op branches of [runCondJump]. *)
Lemma runCondJump_stays (s : State) (op : Operation) :
  op_at (opList s) (progress s) = Some op ->
  num_ge (numJumps s) (item (ingValues op) 3) = true
  \/ FlowControl._getLabelIndex (item (ingValues op) 2) s = -1
  \/ item (ingValues op) 0 = JStr "" ->
  FlowControl.runCondJump s = Returned s.
Proof.
  intros Hop Hc. unfold FlowControl.runCondJump. rewrite Hop.
  destruct Hc as [-> | [-> | ->]]; [reflexivity | |].
  - now rewrite orb_true_r.
  - simpl. now destruct (_ || _).
Qed.

(** With a container whose [get] hands back a promise, the Conditional Jump
    with budget left, a label that resolves and a non-empty pattern throws
    a TypeError: it calls [search] on the promise. *)
Lemma runCondJump_on_promise (s : State) (op : Operation) :
  get_suspends = true ->
  op_at (opList s) (progress s) = Some op ->
  num_ge (numJumps s) (item (ingValues op) 3) = false ->
  FlowControl._getLabelIndex (item (ingValues op) 2) s <> -1 ->
  item (ingValues op) 0 <> JStr "" ->
  FlowControl.runCondJump s
  = Threw FlowControl.type_error
      (set_dish (snd (dish_get STRING (dish s))) s).
Proof.
  intros Hp Hop Hb Hi Hne. unfold FlowControl.runCondJump.
  rewrite Hop, Hb.
  destruct (Z.eqb_spec
              (FlowControl._getLabelIndex (item (ingValues op) 2) s) (-1));
    [contradiction|].
  simpl orb.
  destruct (strict_eq (item (ingValues op) 0) (JStr "")) eqn:Es.
  - apply strict_eq_empty in Es. contradiction.
  - simpl negb. destruct (dish_get STRING (dish s)) as [text d].
    now rewrite Hp.
Qed.

(** What the Conditional Jump does with a container whose [get] hands back
    the value itself: with budget left and a label that resolves, it
    returns the state unchanged for an empty pattern, and for a non-empty
    pattern it searches the text of the current value and moves the cursor
    to the label, adding one to the jump counter, exactly when (match XOR
    invert) holds. *)
Lemma cond_jump_match_xor_invert :
  get_suspends = false ->
  forall (s : State) (op : Operation),
    op_at (opList s) (progress s) = Some op ->
    let regexStr := item (ingValues op) 0 in
    let invert := item (ingValues op) 1 in
    let label := item (ingValues op) 2 in
    let maxJumps := item (ingValues op) 3 in
    let jmpIndex := FlowControl._getLabelIndex label s in
    num_ge (numJumps s) maxJumps = false ->
    jmpIndex <> -1 ->
    (regexStr = JStr "" -> FlowControl.runCondJump s = Returned s)
    /\ (forall (text : string) (d : Dish) (found : Z),
          regexStr <> JStr "" ->
          dish_get STRING (dish s) = (JStr text, d) ->
          regex_search text regexStr = Some found ->
          FlowControl.runCondJump s
          = Returned
              (if xorb (found >? -1) (truthy invert)
               then {| progress := jmpIndex; dish := d; opList := opList s;
                       numJumps := numJumps s + 1;
                       numRegisters := numRegisters s;
                       forkOffset := forkOffset s |}
               else {| progress := progress s; dish := d; opList := opList s;
                       numJumps := numJumps s;
                       numRegisters := numRegisters s;
                       forkOffset := forkOffset s |})).
Proof.
  intros Hp s op Hop regexStr invert label maxJumps jmpIndex Hb Hi. split.
  - intro He. apply (runCondJump_stays s op Hop). now right; right.
  - intros text d found Hne Hget Hfound.
    unfold FlowControl.runCondJump. rewrite Hop.
    fold regexStr invert label maxJumps jmpIndex.
    rewrite Hb.
    destruct (Z.eqb_spec jmpIndex (-1)) as [E|_]; [contradiction|].
    simpl orb.
    destruct (strict_eq regexStr (JStr "")) eqn:Es.
    + apply strict_eq_empty in Es. contradiction.
    + simpl negb. rewrite Hget, Hp, Hfound.
      destruct (found >? -1), (truthy invert); reflexivity.
Qed.

Lemma strict_eq_right_refl (a b : jsval) :
  strict_eq a b = true -> strict_eq b b = true.
Proof.
  destruct a, b; simpl; intro E; try discriminate E; try reflexivity.
  - apply eqb_reflx.
  - apply Z.eqb_refl.
  - apply String.eqb_refl.
Qed.

(** On a recipe whose Label operations carry just a name, the label
    [undefined] resolves to nothing. *)
Lemma ordinary_no_undefined_label (l : list Operation) (o : Z) :
  0 <= o ->
  ordinary_labels l = true ->
  FlowControl.label_scan JUndefined l o = -1.
Proof.
  intros Ho Hord. apply label_scan_not_found; [exact Ho|].
  induction l as [|op l IH]; [reflexivity|].
  simpl in Hord |- *. apply andb_prop in Hord as [Hop Hl].
  rewrite (IH Hl), andb_true_r. unfold is_label_for.
  destruct (name op =? "Label")%string; [|reflexivity].
  simpl in Hop |- *.
  destruct (ingValues op) as [|n [|n' rest]]; try discriminate Hop.
  simpl. now destruct n.
Qed.

Lemma ordinary_label_args (l : list Operation) (L : Operation) :
  ordinary_labels l = true ->
  In L l ->
  (name L =? "Label")%string = true ->
  exists n, ingValues L = [n].
Proof.
  intros Hord HIn Hname. unfold ordinary_labels in Hord.
  rewrite forallb_forall in Hord. specialize (Hord L HIn).
  rewrite Hname in Hord. simpl in Hord.
  destruct (ingValues L) as [|n [|n' rest]]; try discriminate Hord.
  now exists n.
Qed.

Lemma label_found_again (l : list Operation) (L : Operation) (n : jsval) :
  In L l -> is_label_for n L = true -> FlowControl.label_scan n l 0 <> -1.
Proof.
  intros HIn Hlab E. apply label_scan_not_found in E; [|lia].
  rewrite forallb_forall in E. specialize (E L HIn).
  rewrite Hlab in E. discriminate E.
Qed.

(** C8, as amended: the unconditional Jump applied twice gives what it gives
    applied once in every state where it does not jump (counter at the
    budget, or label not resolved), and there it returns the state as it
    is; where it does jump, on a recipe whose Label operations carry just
    their name and with the counter where adding one is exact for two
    further jumps, the second application jumps and counts again, so twice
    differs from once.  The Conditional Jump applied twice gives what it
    gives applied once in every state of such a recipe whose container
    reads the same text again after a read. *)
Theorem jumps_idempotence :
  (forall (s : State) (op : Operation),
      op_at (opList s) (progress s) = Some op ->
      num_ge (numJumps s) (item (ingValues op) 1) = true
      \/ FlowControl._getLabelIndex (item (ingValues op) 0) s = -1 ->
      FlowControl.runJump s = Returned s
      /\ and_then (FlowControl.runJump s) FlowControl.runJump
         = FlowControl.runJump s)
  /\ (forall (s : State) (op : Operation),
        op_at (opList s) (progress s) = Some op ->
        ordinary_labels (opList s) = true ->
        num_ge (numJumps s) (item (ingValues op) 1) = false ->
        FlowControl._getLabelIndex (item (ingValues op) 0) s <> -1 ->
        - safe_limit <= numJumps s < safe_limit - 1 ->
        and_then (FlowControl.runJump s) FlowControl.runJump
        <> FlowControl.runJump s)
  /\ (forall (s : State),
        ordinary_labels (opList s) = true ->
        dish_get STRING (snd (dish_get STRING (dish s)))
        = dish_get STRING (dish s) ->
        and_then (FlowControl.runCondJump s) FlowControl.runCondJump
        = FlowControl.runCondJump s).
Proof.
  split; [|split].
  - intros s op Hop Hc. rewrite (runJump_stays s op Hop Hc).
    split; [reflexivity|]. simpl. exact (runJump_stays s op Hop Hc).
  - intros s op Hop Hord Hb Hi _.
    rewrite (runJump_jumps s op Hop Hb Hi). simpl and_then.
    destruct (label_landing _ s Hi) as (L & HL & HIn & Hlab).
    pose proof Hlab as Hlab'. unfold is_label_for in Hlab'.
    apply andb_prop in Hlab' as [Hname Heq].
    destruct (ordinary_label_args _ L Hord HIn Hname) as (n & Hn).
    rewrite Hn in Heq. simpl in Heq.
    rewrite (runJump_jumps
               (FlowControl.jump_to
                  (FlowControl._getLabelIndex (item (ingValues op) 0) s) s)
               L HL).
    + intro E.
      apply (f_equal (fun r => match r with
                               | Returned x => numJumps x
                               | _ => 0
                               end)) in E.
      simpl in E. lia.
    + rewrite Hn. reflexivity.
    + rewrite Hn. simpl item. apply (label_found_again _ L); [exact HIn|].
      unfold is_label_for. rewrite Hname, Hn. simpl.
      exact (strict_eq_right_refl _ _ Heq).
  - intros s Hord Hread.
    destruct (FlowControl.runCondJump s) as [s'| |] eqn:E; simpl; trivial.
    unfold FlowControl.runCondJump in E.
    destruct (op_at (opList s) (progress s)) as [op|] eqn:Hop;
      [|discriminate E].
    destruct (num_ge (numJumps s) (item (ingValues op) 3)
              || (FlowControl._getLabelIndex (item (ingValues op) 2) s
                  =? -1)) eqn:G.
    { injection E as <-. apply (runCondJump_stays s op Hop).
      apply orb_prop in G as [G | G]; [now left | right; left].
      now apply Z.eqb_eq. }
    apply orb_false_elim in G as [Gb Gi]. apply Z.eqb_neq in Gi.
    destruct (strict_eq (item (ingValues op) 0) (JStr "")) eqn:Ne.
    { injection E as <-. apply (runCondJump_stays s op Hop).
      right; right. now apply strict_eq_empty. }
    simpl negb in E.
    destruct (dish_get STRING (dish s)) as [text d] eqn:Hget.
    simpl in Hread.
    destruct get_suspends eqn:Hs; [discriminate E|].
    destruct text as [| | b | k | | t]; try discriminate E.
    destruct (regex_search t (item (ingValues op) 0)) as [found|] eqn:Hf;
      [|discriminate E].
    destruct ((negb (truthy (item (ingValues op) 1)) && (found >? -1))
              || (truthy (item (ingValues op) 1) && negb (found >? -1)))
      eqn:Hc; injection E as <-.
    + destruct (label_landing _ s Gi) as (L & HL & HIn & Hlab).
      unfold is_label_for in Hlab. apply andb_prop in Hlab as [Hname _].
      destruct (ordinary_label_args _ L Hord HIn Hname) as (n & Hn).
      apply (runCondJump_stays
               (FlowControl.jump_to
                  (FlowControl._getLabelIndex (item (ingValues op) 2) s)
                  (set_dish d s))
               L HL).
      right; left. rewrite Hn.
      apply ordinary_no_undefined_label; [lia | exact Hord].
    + unfold FlowControl.runCondJump.
      change (opList (set_dish d s)) with (opList s).
      change (progress (set_dish d s)) with (progress s).
      change (numJumps (set_dish d s)) with (numJumps s).
      change (dish (set_dish d s)) with d.
      change (FlowControl._getLabelIndex (item (ingValues op) 2)
                (set_dish d s))
        with (FlowControl._getLabelIndex (item (ingValues op) 2) s).
      rewrite Hop, Gb.
      destruct (Z.eqb_spec
                  (FlowControl._getLabelIndex (item (ingValues op) 2) s)
                  (-1)); [contradiction|].
      simpl orb. rewrite Ne. simpl negb. rewrite Hread, Hs, Hf, Hc.
      destruct (_ =? -1); reflexivity.
Qed.

End Jumps.

(** Counterexample to C1 as stated: the budget 2.5, here as the text that
    [Number] reads as 2.5, lets the jump of the self-targeting recipe be
    taken 3 times, which is not the budget. *)
Lemma fraction_budget_jumps_three_times :
  exists q,
    to_number (JStr "2.5") = Finite q
    /\ (q == 5 # 2)%Q
    /\ Recipe.run no_other 8 (mk_state 0 (JStr "") fraction_jump_recipe 0)
       = Returned (mk_state 2 (JStr "") fraction_jump_recipe 3)
    /\ ~ (inject_Z 3 == q)%Q.
Proof.
  eexists. split; [reflexivity|]. split; [reflexivity|].
  split; [reflexivity|]. intro E. discriminate E.
Qed.

(** Counterexample to C8 as stated: on the recipe [Label L; Jump(L, 5)]
    with the cursor on the jump and no jump taken yet, one application
    moves the cursor to the label with one jump counted, and a second
    application jumps again and counts two. *)
Lemma jump_twice_is_not_jump_once :
  and_then (FlowControl.runJump (mk_state 1 (JStr "") (jump_recipe 5) 0))
    FlowControl.runJump
  <> FlowControl.runJump (mk_state 1 (JStr "") (jump_recipe 5) 0).
Proof. vm_compute. discriminate. Qed.

(** The condition of C8 on the Label operations is needed: with a
    container whose [get] hands back the value itself, a Conditional Jump
    that lands on a Label carrying a pattern and a label of its own is
    followed by a second jump. *)
Lemma cond_jump_twice_on_a_long_label :
  and_then
    (@FlowControl.runCondJump TextDish LiteralSearch DecimalLiterals DirectGet
       (mk_state 1 (JStr "aL") long_label_recipe 0))
    (@FlowControl.runCondJump TextDish LiteralSearch DecimalLiterals DirectGet)
  = Returned (mk_state 0 (JStr "aL") long_label_recipe 2)
  /\ @FlowControl.runCondJump TextDish LiteralSearch DecimalLiterals DirectGet
       (mk_state 1 (JStr "aL") long_label_recipe 0)
     = Returned (mk_state 0 (JStr "aL") long_label_recipe 1).
Proof. split; reflexivity. Qed.

(** C7, at the failing input: with budget left, a label that resolves and
    the non-empty pattern [nan], the Conditional Jump on the text
    [banana] throws a TypeError when [dish.get] hands back a promise, as
    the awaited calls of the same file expect: [search] is called on the
    promise.  It jumps, as the specification says, only when [get] hands
    back the text itself. *)
Theorem cond_jump_searches_a_promise :
  FlowControl.runCondJump
    (mk_state 1 (JStr "banana") (cond_jump_recipe "nan" false) 0)
  = Threw FlowControl.type_error
      (mk_state 1 (JStr "banana") (cond_jump_recipe "nan" false) 0)
  /\ @FlowControl.runCondJump TextDish LiteralSearch DecimalLiterals DirectGet
       (mk_state 1 (JStr "banana") (cond_jump_recipe "nan" false) 0)
     = Returned
         (mk_state 0 (JStr "banana") (cond_jump_recipe "nan" false) 1).
Proof. split; reflexivity. Qed.

(** ** Properties of the register substitution *)

Section Substitution.
Variable numRegisters : Z.
Variable registers : list jsval.

Lemma string_app_assoc (a b c : string) :
  ((a ++ b) ++ c = a ++ (b ++ c))%string.
Proof. induction a as [|x a IH]; simpl; [reflexivity | now rewrite IH]. Qed.

Lemma string_app_length (a b : string) :
  String.length (a ++ b) = (String.length a + String.length b)%nat.
Proof. induction a as [|x a IH]; simpl; [reflexivity | now rewrite IH]. Qed.

Lemma backslashes_length (k : nat) : String.length (backslashes k) = k.
Proof. induction k as [|k IH]; simpl; [reflexivity | now rewrite IH]. Qed.

Lemma leading_slashes_run (k : nat) (c : ascii) (r : string) :
  Ascii.eqb c FlowControl.backslash = false ->
  FlowControl.leading_slashes (backslashes k ++ String c r)
  = (backslashes k, String c r).
Proof.
  intro Hc. induction k as [|k IH]; simpl.
  - now rewrite Hc.
  - rewrite IH. cbn. reflexivity.
Qed.

(** The pattern matches a token at the head of the text, with all the
    backslashes in front of it. *)
Lemma match_token_head (k : nat) (d rest : string) :
  captured_digits d rest = true ->
  FlowControl.match_token (backslashes k ++ "$R" ++ d ++ rest)
  = Some (backslashes k, d).
Proof.
  intro Hd. unfold FlowControl.match_token.
  change ("$R" ++ d ++ rest)%string with (String "$" (String "R" (d ++ rest))).
  rewrite leading_slashes_run by reflexivity.
  destruct d as [|d1 [|d2 [|d3 d]]]; simpl in Hd; try discriminate.
  - apply andb_prop in Hd as [H1 H2]. simpl. rewrite H1.
    destruct rest as [|c rest]; [reflexivity|].
    simpl in H2. apply negb_true_iff in H2. now rewrite H2.
  - apply andb_prop in Hd as [H1 H2]. simpl. now rewrite H1, H2.
Qed.

(** No token starts at a plain character. *)
Lemma match_token_plain (c : ascii) (s : string) :
  Ascii.eqb c FlowControl.backslash = false -> Ascii.eqb c "$" = false ->
  FlowControl.match_token (String c s) = None.
Proof.
  intros Hb Hd. unfold FlowControl.match_token. simpl. rewrite Hb.
  destruct s as [|c2 [|d1 r']]; trivial.
  now rewrite Hd.
Qed.

Lemma replace_scan_skip (t rest : string) :
  FlowControl.replace_scan numRegisters registers (t ++ rest) (String.length t)
  = FlowControl.replace_scan numRegisters registers rest 0.
Proof. induction t as [|c t IH]; simpl; [reflexivity | exact IH]. Qed.

(** A matched token at the head of the text is replaced by what the
    callback returns, and the scan resumes right after the token. *)
Lemma replace_scan_token (slashes regNum rest : string) :
  FlowControl.match_token ((slashes ++ "$R" ++ regNum) ++ rest)
  = Some (slashes, regNum) ->
  FlowControl.replaceRegister numRegisters registers
    ((slashes ++ "$R" ++ regNum) ++ rest)
  = (FlowControl.replacer numRegisters registers slashes regNum
     ++ FlowControl.replaceRegister numRegisters registers rest)%string.
Proof.
  intro Hm. unfold FlowControl.replaceRegister.
  remember (slashes ++ "$R" ++ regNum)%string as tok eqn:Et.
  destruct tok as [|c t].
  - destruct slashes; discriminate.
  - simpl append at 2. simpl append in Hm.
    simpl FlowControl.replace_scan at 1. rewrite Hm.
    f_equal.
    assert (String.length (String c t)
            = (String.length slashes + 2 + String.length regNum)%nat) as Hl.
    { rewrite Et, string_app_length. simpl. lia. }
    simpl in Hl.
    replace (String.length slashes + 2 + String.length regNum - 1)%nat
      with (String.length t) by lia.
    apply replace_scan_skip.
Qed.

(** Plain text in front of a token is copied. *)
Lemma replace_scan_plain (pre s : string) :
  plain pre = true ->
  FlowControl.replaceRegister numRegisters registers (pre ++ s)
  = (pre ++ FlowControl.replaceRegister numRegisters registers s)%string.
Proof.
  unfold FlowControl.replaceRegister.
  induction pre as [|c pre IH]; intro Hp; simpl; [reflexivity|].
  simpl in Hp. apply andb_prop in Hp as [Hc Hp].
  apply andb_prop in Hc as [Hb Hd].
  apply negb_true_iff in Hb, Hd.
  change (match FlowControl.match_token (String c (pre ++ s)) with
          | Some (slashes, regNum) =>
              String.append
                (FlowControl.replacer numRegisters registers slashes regNum)
                (FlowControl.replace_scan numRegisters registers (pre ++ s)
                   (String.length slashes + 2 + String.length regNum - 1))
          | None =>
              String c
                (FlowControl.replace_scan numRegisters registers (pre ++ s) 0)
          end
          = String c
              (pre ++ FlowControl.replace_scan numRegisters registers s 0)).
  rewrite (match_token_plain c (pre ++ s) Hb Hd).
  now rewrite IH.
Qed.

Lemma mod2_even (k : nat) : Nat.eqb (Nat.modulo k 2) 0 = Nat.even k.
Proof.
  pose proof (Nat.div_mod_eq k 2) as E.
  pose proof (Nat.mod_upper_bound k 2 ltac:(lia)) as U.
  destruct (Nat.even k) eqn:Ev.
  - apply Nat.even_spec in Ev as [m Hm]. apply Nat.eqb_eq. lia.
  - apply Nat.eqb_neq. intro Z0.
    assert (Nat.even k = true) as Ev'.
    { apply Nat.even_spec. exists (k / 2)%nat. lia. }
    congruence.
Qed.

(** What the callback returns on a token whose index refers to one of the
    registers just captured. *)
Lemma replacer_in_range (k : nat) (d : string) (n : Z) :
  digits_val 0 d = Some n ->
  numRegisters < n + 1 <= numRegisters + groupCount registers ->
  FlowControl.replacer numRegisters registers (backslashes k) d
  = (if Nat.odd k
     then backslashes (k - 1) ++ "$R" ++ d
     else backslashes k
          ++ to_string
               (item registers (Z.to_nat (n + 1 - numRegisters))))%string.
Proof.
  intros Hn Hr. unfold groupCount in Hr. unfold FlowControl.replacer.
  rewrite Hn.
  destruct (Z.leb_spec (n + 1) numRegisters); [lia|].
  destruct (Z.geb_spec (n + 1)
              (numRegisters + Z.of_nat (List.length registers)));
    [lia|].
  simpl orb. cbv iota.
  rewrite backslashes_length, mod2_even. unfold Nat.odd.
  destruct (Nat.even k) eqn:Ev; simpl negb; cbv iota.
  - reflexivity.
  - destruct k as [|k]; [discriminate|].
    simpl. now rewrite Nat.sub_0_r.
Qed.

(** What the callback returns on a token whose index is outside the
    registers just captured. *)
Lemma replacer_out_of_range (k : nat) (d : string) (n : Z) :
  digits_val 0 d = Some n ->
  ~ (numRegisters < n + 1 <= numRegisters + groupCount registers) ->
  FlowControl.replacer numRegisters registers (backslashes k) d
  = (backslashes k ++ "$R" ++ d)%string.
Proof.
  intros Hn Hr. unfold groupCount in Hr. unfold FlowControl.replacer.
  rewrite Hn.
  destruct (Z.leb_spec (n + 1) numRegisters); [reflexivity|].
  destruct (Z.geb_spec (n + 1)
              (numRegisters + Z.of_nat (List.length registers)));
    [reflexivity | lia].
Qed.

Lemma replace_token_after_plain (pre : string) (k : nat) (d rest : string) :
  plain pre = true ->
  captured_digits d rest = true ->
  FlowControl.replaceRegister numRegisters registers
    (pre ++ backslashes k ++ "$R" ++ d ++ rest)
  = (pre ++ FlowControl.replacer numRegisters registers (backslashes k) d
         ++ FlowControl.replaceRegister numRegisters registers rest)%string.
Proof.
  intros Hp Hd. rewrite replace_scan_plain by exact Hp. f_equal.
  assert ((backslashes k ++ "$R" ++ d ++ rest)%string
          = ((backslashes k ++ "$R" ++ d) ++ rest)%string) as E.
  { rewrite string_app_assoc. f_equal. }
  rewrite E. apply replace_scan_token. rewrite <- E.
  now apply match_token_head.
Qed.

(** C4: for a matched token (a run of [k] backslashes, [$R], one or two
    digits) whose index [n + 1] refers to one of the registers just captured,
    an odd [k] removes one leading backslash and keeps the literal token
    without substitution, and an even [k] (zero included) emits the
    backslashes verbatim followed by the captured value at
    [registers[index - numRegisters]]. *)
Theorem escaping_law :
  forall (pre : string) (k : nat) (d rest : string) (n : Z),
    plain pre = true ->
    captured_digits d rest = true ->
    digits_val 0 d = Some n ->
    numRegisters < n + 1 <= numRegisters + groupCount registers ->
    FlowControl.replaceRegister numRegisters registers
      (pre ++ backslashes k ++ "$R" ++ d ++ rest)
    = (pre
       ++ (if Nat.odd k
           then backslashes (k - 1) ++ "$R" ++ d
           else backslashes k
                ++ to_string
                     (item registers (Z.to_nat (n + 1 - numRegisters))))
       ++ FlowControl.replaceRegister numRegisters registers rest)%string.
Proof.
  intros pre k d rest n Hp Hd Hn Hr.
  rewrite replace_token_after_plain by assumption.
  now rewrite (replacer_in_range k d n).
Qed.

(** C5: a token whose index (its digit value plus one) is not in the range
    (numRegisters, numRegisters + groupCount] is left verbatim, backslashes
    included, so that substituting again changes nothing; in particular
    [$R99] is emitted verbatim when two registers have been captured. *)
Theorem out_of_range_token_verbatim :
  (forall (pre : string) (k : nat) (d rest : string) (n : Z),
      plain pre = true ->
      captured_digits d rest = true ->
      digits_val 0 d = Some n ->
      ~ (numRegisters < n + 1 <= numRegisters + groupCount registers) ->
      FlowControl.replaceRegister numRegisters registers
        (pre ++ backslashes k ++ "$R" ++ d ++ rest)
      = (pre ++ (backslashes k ++ "$R" ++ d)
             ++ FlowControl.replaceRegister numRegisters registers rest)%string)
  /\ (forall (k : nat) (d : string) (n : Z),
        captured_digits d "" = true ->
        digits_val 0 d = Some n ->
        ~ (numRegisters < n + 1 <= numRegisters + groupCount registers) ->
        let token := (backslashes k ++ "$R" ++ d)%string in
        FlowControl.replaceRegister numRegisters registers token = token
        /\ FlowControl.replaceRegister numRegisters registers
             (FlowControl.replaceRegister numRegisters registers token)
           = FlowControl.replaceRegister numRegisters registers token)
  /\ (forall whole first second : jsval,
        FlowControl.replaceRegister 0 [whole; first; second] "$R99" = "$R99").
Proof.
  assert (forall (pre : string) (k : nat) (d rest : string) (n : Z),
      plain pre = true ->
      captured_digits d rest = true ->
      digits_val 0 d = Some n ->
      ~ (numRegisters < n + 1 <= numRegisters + groupCount registers) ->
      FlowControl.replaceRegister numRegisters registers
        (pre ++ backslashes k ++ "$R" ++ d ++ rest)
      = (pre ++ (backslashes k ++ "$R" ++ d)
             ++ FlowControl.replaceRegister numRegisters registers rest)%string)
    as General.
  { intros pre k d rest n Hp Hd Hn Hr.
    rewrite replace_token_after_plain by assumption.
    now rewrite (replacer_out_of_range k d n). }
  split; [exact General | split].
  - intros k d n Hd Hn Hr token.
    assert (FlowControl.replaceRegister numRegisters registers token = token)
      as Fix.
    { assert (forall s : string, (s ++ "")%string = s) as app_nil.
      { induction s as [|c s IH]; simpl; [reflexivity | now rewrite IH]. }
      subst token.
      transitivity
        (FlowControl.replaceRegister numRegisters registers
           ("" ++ backslashes k ++ "$R" ++ d ++ "")).
      { now rewrite (app_nil d). }
      rewrite (General "" k d "" n eq_refl Hd Hn Hr).
      change (FlowControl.replaceRegister numRegisters registers "")
        with EmptyString.
      now rewrite app_nil. }
    split; [exact Fix | now rewrite Fix].
  - intros whole first second. reflexivity.
Qed.

End Substitution.

(** ** Properties of Fork *)

Section Fork.
Context `{DishOps}.

Lemma set_ingValues_same (op : Operation) :
  set_ingValues (ingValues op) op = op.
Proof. now destruct op. Qed.

Lemma write_ings_same (l : list Operation) :
  FlowControl.write_ings l (map (fun o => ingValues o) l) = l.
Proof.
  induction l as [|op l IH]; simpl; [reflexivity|].
  now rewrite set_ingValues_same, IH.
Qed.

Lemma sub_ops_prefix (l : list Operation) :
  FlowControl.sub_ops l = firstn (List.length (FlowControl.sub_ops l)) l.
Proof.
  induction l as [|op l IH]; simpl; [reflexivity|].
  destruct (_ && _); simpl; [reflexivity | now rewrite <- IH].
Qed.

Lemma firstn_mid_skipn {A : Type} (n k : nat) (l : list A) :
  firstn n l ++ firstn k (skipn n l) ++ skipn (n + k) l = l.
Proof.
  rewrite (Nat.add_comm n k), <- skipn_skipn.
  now rewrite (firstn_skipn k (skipn n l)), firstn_skipn.
Qed.

(** Writing back the values that the sub-operations already hold leaves the
    operation list as it is. *)
Lemma shared_same (state : State) :
  FlowControl.shared (opList state) (progress state)
    (FlowControl.write_ings (FlowControl.fork_subOpList state)
       (map (fun o => ingValues o) (FlowControl.fork_subOpList state)))
  = opList state.
Proof.
  rewrite write_ings_same.
  unfold FlowControl.shared, FlowControl.fork_subOpList.
  rewrite (sub_ops_prefix (skipn _ (opList state))) at 1.
  apply firstn_mid_skipn.
Qed.

Section Loop.
Variable execute : exec_fn.
Variable state : State.
Variable subOpList : list Operation.
Variable baseline : list (list jsval).
Variables inputType outputType : dtype.
Variables mergeDelim ignoreErrors : jsval.

(** The loop over tranches that all pass continues with the tranches that
    remain: each passed tranche has appended its contribution, and the
    progress and the ingredient values are those of the last one. *)
Lemma run_tranches_passed (pre rest : list string) :
  forall (output : string) (progress : Z) (ings : list (list jsval)),
    forallb
      (fun x =>
         passes ignoreErrors
           (FlowControl.run_tranche execute state subOpList baseline
              inputType x)) pre = true ->
    FlowControl.run_tranches execute state subOpList baseline inputType
      outputType mergeDelim ignoreErrors (pre ++ rest) output progress ings
    = FlowControl.run_tranches execute state subOpList baseline inputType
        outputType mergeDelim ignoreErrors rest
        (output
         ++ concat_all
              (map
                 (fun x =>
                    contribution outputType mergeDelim
                      (FlowControl.run_tranche execute state subOpList
                         baseline inputType x)) pre))
        (fold_left
           (fun p x =>
              recorded_progress p
                (FlowControl.run_tranche execute state subOpList baseline
                   inputType x)) pre progress)
        (fold_left
           (fun i x =>
              left_ings i
                (FlowControl.run_tranche execute state subOpList baseline
                   inputType x)) pre ings).
Proof.
  assert (forall s : string, (s ++ "")%string = s) as app_nil.
  { induction s as [|c s IH]; simpl; [reflexivity | now rewrite IH]. }
  induction pre as [|x pre IH]; intros output progress ings Hp.
  - simpl. now rewrite app_nil.
  - simpl in Hp. apply andb_prop in Hp as [Hx Hp].
    simpl.
    destruct (FlowControl.run_tranche execute state subOpList baseline
                inputType x) as [p d i | p c d i |]; simpl in Hx.
    + rewrite (IH _ _ _ Hp). simpl. now rewrite string_app_assoc.
    + rewrite Hx. simpl. rewrite (IH _ _ _ Hp). simpl.
      now rewrite string_app_assoc.
    + discriminate.
Qed.

(** When every tranche passes, the loop ends with all the contributions. *)
Lemma run_tranches_all_passed (inputs : list string) (output : string)
    (progress : Z) (ings : list (list jsval)) :
  forallb
    (fun x =>
       passes ignoreErrors
         (FlowControl.run_tranche execute state subOpList baseline inputType x))
    inputs = true ->
  FlowControl.run_tranches execute state subOpList baseline inputType
    outputType mergeDelim ignoreErrors inputs output progress ings
  = FlowControl.LoopDone
      (output
       ++ concat_all
            (map
               (fun x =>
                  contribution outputType mergeDelim
                    (FlowControl.run_tranche execute state subOpList baseline
                       inputType x)) inputs))
      (fold_left
         (fun p x =>
            recorded_progress p
              (FlowControl.run_tranche execute state subOpList baseline
                 inputType x)) inputs progress)
      (fold_left
         (fun i x =>
            left_ings i
              (FlowControl.run_tranche execute state subOpList baseline
                 inputType x)) inputs ings).
Proof.
  intro Hp.
  pose proof (run_tranches_passed inputs [] output progress ings Hp) as E.
  now rewrite app_nil_r in E.
Qed.

End Loop.

Lemma concat_all_app (a b : list string) :
  concat_all (a ++ b) = (concat_all a ++ concat_all b)%string.
Proof.
  induction a as [|x a IH]; simpl; [reflexivity|].
  now rewrite IH, string_app_assoc.
Qed.

(** [runFork] once the operation at the cursor, the value read and the
    tranche inputs are known: the loop over the tranches, then the end of
    the function. *)
Lemma runFork_loop (execute : exec_fn) (st : State) (op : Operation)
    (v : jsval) (d1 : Dish) (inputs : list string) :
  op_at (opList st) (progress st) = Some op ->
  dish_get (inputType op) (dish st) = (v, d1) ->
  FlowControl.fork_inputs v (item (ingValues op) 0) = Some inputs ->
  FlowControl.runFork execute st
  = FlowControl.fork_end (FlowControl.fork_offset (set_dish d1 st)) op
      (FlowControl.fork_subOpList st)
      (FlowControl.run_tranches execute (tranche_state st d1)
         (FlowControl.fork_subOpList st) (fork_baseline st)
         (inputType op) (outputType op)
         (item (ingValues op) 1) (item (ingValues op) 2)
         inputs "" 0
         (map (fun o => ingValues o) (FlowControl.fork_subOpList st))).
Proof.
  intros Hop Hget Hin. unfold FlowControl.runFork.
  now rewrite Hop, Hget, Hin.
Qed.

(** The loop calls [execute] on the state object it is given only. *)
Lemma run_tranches_ext (execute execute' : exec_fn) (state : State)
    (subOpList : list Operation) (baseline : list (list jsval))
    (inputType outputType : dtype) (mergeDelim ignoreErrors : jsval)
    (inputs : list string) :
  (forall ops d k, execute' ops d k state = execute ops d k state) ->
  forall (output : string) (progress : Z) (ings : list (list jsval)),
    FlowControl.run_tranches execute' state subOpList baseline inputType
      outputType mergeDelim ignoreErrors inputs output progress ings
    = FlowControl.run_tranches execute state subOpList baseline inputType
        outputType mergeDelim ignoreErrors inputs output progress ings.
Proof.
  intro Hext.
  induction inputs as [|x inputs IH]; intros output progress ings; simpl.
  - reflexivity.
  - unfold FlowControl.run_tranche. rewrite Hext.
    destruct (execute _ _ _ _) as [p d i | p c d i |]; trivial.
    destruct (negb _); trivial.
Qed.

Lemma fork_inputs_text (v splitDelim : jsval) :
  text_or_falsy v = true ->
  exists inputs, FlowControl.fork_inputs v splitDelim = Some inputs.
Proof.
  unfold FlowControl.fork_inputs.
  destruct v as [| | b | n | | s]; simpl; intro Ht;
    try (apply negb_true_iff in Ht; rewrite Ht); eauto.
  destruct (negb _); eauto.
Qed.

(** The loop ends, normally or by a throw, when the run of every tranche
    ends. *)
Lemma run_tranches_ends (execute : exec_fn) (state : State)
    (subOpList : list Operation) (baseline : list (list jsval))
    (inputType outputType : dtype) (mergeDelim ignoreErrors : jsval)
    (inputs : list string) :
  forallb
    (fun x =>
       terminates
         (FlowControl.run_tranche execute state subOpList baseline
            inputType x)) inputs = true ->
  forall (output : string) (progress : Z) (ings : list (list jsval)),
    FlowControl.run_tranches execute state subOpList baseline inputType
      outputType mergeDelim ignoreErrors inputs output progress ings
    <> FlowControl.LoopDiverged.
Proof.
  induction inputs as [|x inputs IH]; intros Hall output progress ings; simpl.
  - discriminate.
  - simpl in Hall. apply andb_prop in Hall as [Hx Hall].
    destruct (FlowControl.run_tranche execute state subOpList baseline
                inputType x) as [p d i | p c d i |].
    + now apply IH.
    + destruct (negb (truthy ignoreErrors)); [discriminate | now apply IH].
    + discriminate.
Qed.

(** C2: when a tranche's sub-recipe fails and [ignoreErrors] is not set,
    the fork aborts at once with that failure and writes nothing into the
    outer container; when [ignoreErrors] is set, the failing tranche
    contributes the value of its child container at failure time followed by
    the merge delimiter, the progress recorded for it is the exit progress of
    the failure plus one, and the tranches after it still run. *)
Theorem fork_error_handling :
  forall (execute : exec_fn) (st : State) (op : Operation) (text : string)
         (d1 : Dish) (pre : list string) (x : string) (post : list string)
         (p : Z) (c : cause) (d' : Dish) (ings' : list (list jsval)),
    op_at (opList st) (progress st) = Some op ->
    dish_get (inputType op) (dish st) = (JStr text, d1) ->
    text <> EmptyString ->
    split text (item (ingValues op) 0) = pre ++ x :: post ->
    fork_tranche execute st op d1 x = ExecThrew p c d' ings' ->
    let mergeDelim := item (ingValues op) 1 in
    let ignoreErrors := item (ingValues op) 2 in
    (truthy ignoreErrors = false ->
     forallb (fun y => returns (fork_tranche execute st op d1 y)) pre = true ->
     exists st',
       FlowControl.runFork execute st
       = Threw {| err_cause := c; err_progress := Some p |} st'
       /\ dish st' = d1
       /\ progress st' = progress st)
    /\ (truthy ignoreErrors = true ->
        forallb (fun y => terminates (fork_tranche execute st op d1 y))
          (pre ++ post) = true ->
        exists st',
          FlowControl.runFork execute st = Returned st'
          /\ dish st'
             = dish_set
                 (JStr
                    (concat_all
                       (map (fun y =>
                               contribution (outputType op) mergeDelim
                                 (fork_tranche execute st op d1 y)) pre)
                     ++ FlowControl.tranche_text (outputType op) mergeDelim d'
                     ++ concat_all
                          (map (fun y =>
                                  contribution (outputType op) mergeDelim
                                    (fork_tranche execute st op d1 y)) post)))
                 (outputType op) d1
          /\ progress st'
             = progress st
               + fold_left
                   (fun q y =>
                      recorded_progress q (fork_tranche execute st op d1 y))
                   post (p + 1)).
Proof.
  intros execute st op text d1 pre x post p c d' ings' Hop Hget Hne Hsplit Hx
    mergeDelim ignoreErrors.
  assert (FlowControl.fork_inputs (JStr text) (item (ingValues op) 0)
          = Some (pre ++ x :: post)) as Hin.
  { unfold FlowControl.fork_inputs. simpl.
    destruct (String.eqb_spec text ""); [contradiction|].
    simpl. now rewrite Hsplit. }
  rewrite (runFork_loop execute st op _ d1 _ Hop Hget Hin).
  fold mergeDelim ignoreErrors.
  unfold fork_tranche in *.
  split.
  - intros Hign Hpre.
    rewrite run_tranches_passed.
    + simpl. rewrite Hx, Hign. simpl.
      eexists. split; [reflexivity|]. split; reflexivity.
    + rewrite forallb_forall in *. intros y Hy. specialize (Hpre y Hy).
      destruct (FlowControl.run_tranche _ _ _ _ _ y); trivial; discriminate.
  - intros Hign Hall.
    rewrite forallb_app in Hall. apply andb_prop in Hall as [Hpre Hpost].
    rewrite run_tranches_passed.
    + simpl. rewrite Hx, Hign. simpl.
      rewrite run_tranches_all_passed.
      * simpl. eexists. split; [reflexivity|]. split.
        -- simpl. now rewrite !string_app_assoc.
        -- reflexivity.
      * rewrite forallb_forall in *. intros y Hy. specialize (Hpost y Hy).
        destruct (FlowControl.run_tranche _ _ _ _ _ y); trivial.
    + rewrite forallb_forall in *. intros y Hy. specialize (Hpre y Hy).
      destruct (FlowControl.run_tranche _ _ _ _ _ y); trivial.
Qed.

(** C9: every invocation of Fork adds cursor + 1 to the fork offset before
    any tranche runs, the tranches running on the state that carries the
    incremented offset, and the increment is never rolled back: the state
    that Fork returns, with or without tranches, and the state that it
    leaves when the failure of a tranche propagates both carry it; and Fork
    does return or throw when the run of every tranche ends. *)
Theorem fork_offset_increment :
  forall (execute : exec_fn) (st : State) (op : Operation) (v : jsval)
         (d1 : Dish) (inputs : list string),
    op_at (opList st) (progress st) = Some op ->
    dish_get (inputType op) (dish st) = (v, d1) ->
    FlowControl.fork_inputs v (item (ingValues op) 0) = Some inputs ->
    (forall execute' : exec_fn,
        (forall ops d k fs,
            forkOffset fs = forkOffset st + (progress st + 1) ->
            execute' ops d k fs = execute ops d k fs) ->
        FlowControl.runFork execute' st = FlowControl.runFork execute st)
    /\ match FlowControl.runFork execute st with
       | Returned st' | Threw _ st' =>
           forkOffset st' = forkOffset st + (progress st + 1)
       | Diverged => True
       end
    /\ (forallb (fun x => terminates (fork_tranche execute st op d1 x)) inputs
        = true ->
        FlowControl.runFork execute st <> Diverged).
Proof.
  intros execute st op v d1 inputs Hop Hget Hin.
  split; [|split].
  - intros execute' Hext.
    rewrite !(runFork_loop _ st op v d1 inputs Hop Hget Hin).
    f_equal. apply run_tranches_ext.
    intros ops d k. apply Hext. reflexivity.
  - rewrite (runFork_loop _ st op v d1 inputs Hop Hget Hin).
    destruct (FlowControl.run_tranches _ _ _ _ _ _ _ _ _ _ _ _);
      simpl; trivial.
  - intro Hall.
    rewrite (runFork_loop _ st op v d1 inputs Hop Hget Hin).
    pose proof (run_tranches_ends execute (tranche_state st d1)
                  (FlowControl.fork_subOpList st) (fork_baseline st)
                  (inputType op) (outputType op)
                  (item (ingValues op) 1) (item (ingValues op) 2)
                  inputs Hall "" 0
                  (map (fun o => ingValues o) (FlowControl.fork_subOpList st)))
      as Hends.
    destruct (FlowControl.run_tranches _ _ _ _ _ _ _ _ _ _ _ _);
      simpl; [discriminate | discriminate | contradiction].
Qed.

(** C10: when the text of the current value is empty or absent, Fork runs
    no tranche, still writes the empty string into the outer container under
    its output type, and advances the cursor by zero. *)
Theorem fork_empty_input :
  forall (execute : exec_fn) (st : State) (op : Operation) (v : jsval)
         (d1 : Dish),
    op_at (opList st) (progress st) = Some op ->
    dish_get (inputType op) (dish st) = (v, d1) ->
    v = JStr "" \/ v = JNull \/ v = JUndefined ->
    FlowControl.fork_inputs v (item (ingValues op) 0) = Some []
    /\ FlowControl.runFork execute st
       = Returned
           {| progress := progress st;
              dish := dish_set (JStr "") (outputType op) d1;
              opList := opList st;
              numJumps := numJumps st;
              numRegisters := numRegisters st;
              forkOffset := forkOffset st + (progress st + 1) |}.
Proof.
  intros execute st op v d1 Hop Hget Hv.
  assert (FlowControl.fork_inputs v (item (ingValues op) 0) = Some []) as Hin.
  { destruct Hv as [-> | [-> | ->]]; reflexivity. }
  split; [exact Hin|].
  rewrite (runFork_loop execute st op v d1 [] Hop Hget Hin).
  simpl FlowControl.run_tranches. unfold FlowControl.fork_end.
  unfold FlowControl.with_sub.
  change (opList (FlowControl.fork_offset (set_dish d1 st))) with (opList st).
  change (progress (FlowControl.fork_offset (set_dish d1 st)))
    with (progress st).
  rewrite shared_same. simpl.
  now rewrite Z.add_0_r.
Qed.

(** C6: a fork whose sub-recipe leaves in each child container the tranche
    it was given writes into the outer container, under its output type,
    every tranche in order followed by the merge delimiter; splitting
    ["a,b,c"] on [","] and merging with [";"] writes ["a;b;c;"], trailing
    delimiter included. *)
Theorem fork_merge_round_trip :
  forall (execute : exec_fn) (st : State) (op : Operation) (s : string)
         (d1 : Dish),
    op_at (opList st) (progress st) = Some op ->
    dish_get (inputType op) (dish st) = (JStr s, d1) ->
    s <> EmptyString ->
    let splitDelim := item (ingValues op) 0 in
    let mergeDelim := item (ingValues op) 1 in
    (forall x, In x (split s splitDelim) ->
       exists p dx ings,
         fork_tranche execute st op d1 x = ExecReturned p dx ings
         /\ fst (dish_get (outputType op) dx) = JStr x) ->
    exists st',
      FlowControl.runFork execute st = Returned st'
      /\ dish st'
         = dish_set
             (JStr
                (concat_all
                   (map (fun x => (x ++ to_string mergeDelim)%string)
                      (split s splitDelim))))
             (outputType op) d1
      /\ (s = "a,b,c" -> splitDelim = JStr "," -> mergeDelim = JStr ";" ->
          dish st' = dish_set (JStr "a;b;c;") (outputType op) d1).
Proof.
  intros execute st op s d1 Hop Hget Hne splitDelim mergeDelim Hid.
  assert (FlowControl.fork_inputs (JStr s) splitDelim
          = Some (split s splitDelim)) as Hin.
  { unfold FlowControl.fork_inputs. simpl.
    now destruct (String.eqb_spec s ""). }
  rewrite (runFork_loop execute st op _ _ _ Hop Hget Hin).
  fold mergeDelim. unfold fork_tranche in Hid.
  rewrite run_tranches_all_passed.
  - simpl FlowControl.fork_end.
    eexists. split; [reflexivity|].
    assert (map
              (fun x =>
                 contribution (outputType op) mergeDelim
                   (FlowControl.run_tranche execute (tranche_state st d1)
                      (FlowControl.fork_subOpList st) (fork_baseline st)
                      (inputType op) x)) (split s splitDelim)
            = map (fun x => (x ++ to_string mergeDelim)%string)
                (split s splitDelim)) as Hmap.
    { apply map_ext_in. intros x Hx.
      destruct (Hid x Hx) as (p & dx & ings & -> & Hread).
      simpl. unfold FlowControl.tranche_text. now rewrite Hread. }
    split.
    + simpl. now rewrite Hmap.
    + intros -> Hs Hm. simpl. rewrite Hmap, Hs, Hm. reflexivity.
  - apply forallb_forall. intros x Hx.
    destruct (Hid x Hx) as (p & dx & ings & -> & _). reflexivity.
Qed.

End Fork.

(** ** The properties at concrete recipes *)

Lemma jump_budget_witness :
  FlowControl.runJump (mk_state 1 (JStr "x") (jump_recipe 2) 2)
  = Returned (mk_state 1 (JStr "x") (jump_recipe 2) 2)
  /\ FlowControl.runJump (mk_state 1 (JStr "x") (jump_recipe 2) 1)
     = Returned (mk_state 0 (JStr "x") (jump_recipe 2) 2)
  /\ Recipe.run no_other 6 (mk_state 0 (JStr "x") fraction_jump_recipe 0)
     = Returned (mk_state 2 (JStr "x") fraction_jump_recipe 3)
  /\ Recipe.run no_other 6 (mk_state 0 (JStr "x") (jump_recipe 3) 0)
     = Returned (mk_state 2 (JStr "x") (jump_recipe 3) 3).
Proof.
  destruct (@jump_budget TextDish LiteralSearch DecimalLiterals PromisedGet)
    as (J & B & L).
  split; [|split; [|split]].
  - apply (proj1 (J (mk_state 1 (JStr "x") (jump_recipe 2) 2)
                    (mk_op "Jump" [JStr "L"; JNum 2]) eq_refl)).
    left. reflexivity.
  - apply (proj2 (J (mk_state 1 (JStr "x") (jump_recipe 2) 1)
                    (mk_op "Jump" [JStr "L"; JNum 2]) eq_refl)).
    + reflexivity.
    + vm_compute. discriminate.
    + vm_compute. split; [discriminate | reflexivity].
  - apply (B no_other (JStr "x") (tt : @dtype TextDish) "L" (JStr "2.5")
             _ 0 0 6%nat eq_refl).
    + vm_compute. discriminate.
    + vm_compute. discriminate.
    + vm_compute. lia.
  - apply (L no_other (JStr "x") (tt : @dtype TextDish) "L" 3 0 0 6%nat).
    + vm_compute. split; discriminate.
    + simpl. lia.
Defined.

Lemma jumps_idempotence_witness :
  and_then (FlowControl.runJump (mk_state 1 (JStr "x") (jump_recipe 2) 2))
    FlowControl.runJump
  = FlowControl.runJump (mk_state 1 (JStr "x") (jump_recipe 2) 2)
  /\ and_then (FlowControl.runJump (mk_state 1 (JStr "x") (jump_recipe 2) 1))
       FlowControl.runJump
     <> FlowControl.runJump (mk_state 1 (JStr "x") (jump_recipe 2) 1)
  /\ and_then
       (@FlowControl.runCondJump TextDish LiteralSearch DecimalLiterals
          DirectGet
          (mk_state 1 (JStr "banana") (cond_jump_recipe "nan" false) 0))
       (@FlowControl.runCondJump TextDish LiteralSearch DecimalLiterals
          DirectGet)
     = @FlowControl.runCondJump TextDish LiteralSearch DecimalLiterals
         DirectGet
         (mk_state 1 (JStr "banana") (cond_jump_recipe "nan" false) 0)
  /\ and_then
       (FlowControl.runCondJump
          (mk_state 1 (JStr "banana") (cond_jump_recipe "nan" false) 0))
       FlowControl.runCondJump
     = FlowControl.runCondJump
         (mk_state 1 (JStr "banana") (cond_jump_recipe "nan" false) 0).
Proof.
  split; [|split; [|split]].
  - apply (proj2 (proj1 (@jumps_idempotence TextDish LiteralSearch
                            DecimalLiterals PromisedGet)
                    (mk_state 1 (JStr "x") (jump_recipe 2) 2)
                    (mk_op "Jump" [JStr "L"; JNum 2]) eq_refl
                    (or_introl eq_refl))).
  - apply (proj1 (proj2 (@jumps_idempotence TextDish LiteralSearch
                            DecimalLiterals PromisedGet))
             (mk_state 1 (JStr "x") (jump_recipe 2) 1)
             (mk_op "Jump" [JStr "L"; JNum 2]) eq_refl eq_refl eq_refl).
    + vm_compute. discriminate.
    + vm_compute. split; [discriminate | reflexivity].
  - apply (proj2 (proj2 (@jumps_idempotence TextDish LiteralSearch
                            DecimalLiterals DirectGet))
             (mk_state 1 (JStr "banana") (cond_jump_recipe "nan" false) 0)
             eq_refl eq_refl).
  - apply (proj2 (proj2 (@jumps_idempotence TextDish LiteralSearch
                            DecimalLiterals PromisedGet))
             (mk_state 1 (JStr "banana") (cond_jump_recipe "nan" false) 0)
             eq_refl eq_refl).
Defined.

Lemma escaping_law_witness :
  FlowControl.replaceRegister 0 [JStr "12-34"; JStr "12"; JStr "34"]
    ("to " ++ backslashes 1 ++ "$R" ++ "1" ++ "!")
  = ("to " ++ "$R1" ++ "!")%string
  /\ FlowControl.replaceRegister 0 [JStr "12-34"; JStr "12"; JStr "34"]
       ("to " ++ backslashes 2 ++ "$R" ++ "1" ++ "!")
     = ("to " ++ (backslashes 2 ++ "34") ++ "!")%string.
Proof.
  split.
  - apply (escaping_law 0 [JStr "12-34"; JStr "12"; JStr "34"]
             "to " 1 "1" "!" 1);
      [reflexivity | reflexivity | reflexivity | unfold groupCount; simpl; lia].
  - apply (escaping_law 0 [JStr "12-34"; JStr "12"; JStr "34"]
             "to " 2 "1" "!" 1);
      [reflexivity | reflexivity | reflexivity | unfold groupCount; simpl; lia].
Defined.

Lemma out_of_range_token_verbatim_witness :
  FlowControl.replaceRegister 0 [JStr "12-34"; JStr "12"; JStr "34"]
    ("see " ++ backslashes 1 ++ "$R" ++ "99" ++ ".")
  = ("see " ++ (backslashes 1 ++ "$R" ++ "99") ++ ".")%string
  /\ FlowControl.replaceRegister 0 [JStr "12-34"; JStr "12"; JStr "34"]
       (FlowControl.replaceRegister 0 [JStr "12-34"; JStr "12"; JStr "34"]
          "$R99")
     = FlowControl.replaceRegister 0 [JStr "12-34"; JStr "12"; JStr "34"]
         "$R99".
Proof.
  destruct (out_of_range_token_verbatim 0 [JStr "12-34"; JStr "12"; JStr "34"])
    as (General & Fix & _).
  split.
  - apply (General "see " 1%nat "99" "." 99);
      [reflexivity | reflexivity | reflexivity | unfold groupCount; simpl; lia].
  - apply (Fix 0%nat "99" 99);
      [reflexivity | reflexivity | unfold groupCount; simpl; lia].
Defined.

Lemma fork_error_handling_witness :
  (exists st',
      FlowControl.runFork (Recipe.execute fails_on_b 4)
        (mk_state 0 (JStr "a,b,c") (checked_fork false) 0)
      = Threw {| err_cause := OperationError "b is refused";
                 err_progress := Some 0 |} st'
      /\ dish st' = JStr "a,b,c"
      /\ progress st' = 0)
  /\ (exists st',
         FlowControl.runFork (Recipe.execute fails_on_b 4)
           (mk_state 0 (JStr "a,b,c") (checked_fork true) 0)
         = Returned st'
         /\ dish st' = JStr "a;b;c;"
         /\ progress st' = 1).
Proof.
  split.
  - apply (proj1 (@fork_error_handling TextDish
                    (Recipe.execute fails_on_b 4)
                    (mk_state 0 (JStr "a,b,c") (checked_fork false) 0)
                    (mk_op "Fork" [JStr ","; JStr ";"; JBool false])
                    "a,b,c" (JStr "a,b,c") ["a"] "b" ["c"]
                    0 (OperationError "b is refused") (JStr "b") [[]]
                    eq_refl eq_refl ltac:(discriminate) eq_refl eq_refl));
      reflexivity.
  - apply (proj2 (@fork_error_handling TextDish
                    (Recipe.execute fails_on_b 4)
                    (mk_state 0 (JStr "a,b,c") (checked_fork true) 0)
                    (mk_op "Fork" [JStr ","; JStr ";"; JBool true])
                    "a,b,c" (JStr "a,b,c") ["a"] "b" ["c"]
                    0 (OperationError "b is refused") (JStr "b") [[]]
                    eq_refl eq_refl ltac:(discriminate) eq_refl eq_refl));
      reflexivity.
Defined.

Lemma fork_offset_increment_witness :
  match
    FlowControl.runFork (Recipe.execute fails_on_b 4)
      (mk_state 0 (JStr "a,b,c") (checked_fork false) 0)
  with
  | Returned st' | Threw _ st' => forkOffset st' = 1
  | Diverged => True
  end
  /\ FlowControl.runFork (Recipe.execute fails_on_b 4)
       (mk_state 0 (JStr "a,b,c") (checked_fork false) 0)
     <> Diverged.
Proof.
  pose proof (@fork_offset_increment TextDish
                (Recipe.execute fails_on_b 4)
                (mk_state 0 (JStr "a,b,c") (checked_fork false) 0)
                (mk_op "Fork" [JStr ","; JStr ";"; JBool false])
                (JStr "a,b,c") (JStr "a,b,c") ["a"; "b"; "c"]
                eq_refl eq_refl eq_refl) as (_ & Offset & Ends).
  split; [exact Offset | apply Ends; reflexivity].
Defined.

Lemma fork_empty_input_witness :
  FlowControl.runFork (Recipe.execute no_other 4)
    (mk_state 0 (JStr "") plain_fork 0)
  = Returned
      {| progress := 0; dish := JStr ""; opList := plain_fork; numJumps := 0;
         numRegisters := 0; forkOffset := 1 |}.
Proof.
  apply (proj2 (@fork_empty_input TextDish (Recipe.execute no_other 4)
                  (mk_state 0 (JStr "") plain_fork 0)
                  (mk_op "Fork" [JStr ","; JStr ";"; JBool false])
                  (JStr "") (JStr "") eq_refl eq_refl (or_introl eq_refl))).
Defined.

Lemma fork_merge_round_trip_witness :
  exists st',
    FlowControl.runFork (Recipe.execute no_other 4)
      (mk_state 0 (JStr "a,b,c") plain_fork 0)
    = Returned st'
    /\ dish st' = JStr "a;b;c;".
Proof.
  destruct (@fork_merge_round_trip TextDish (Recipe.execute no_other 4)
              (mk_state 0 (JStr "a,b,c") plain_fork 0)
              (mk_op "Fork" [JStr ","; JStr ";"; JBool false])
              "a,b,c" (JStr "a,b,c") eq_refl eq_refl ltac:(discriminate))
    as (st' & E & _ & D).
  - intros x Hx. vm_compute in Hx.
    destruct Hx as [<- | [<- | [<- | []]]];
      eexists; eexists; eexists; split; reflexivity.
  - exists st'. split; [exact E | now apply D].
Defined.

(** * Further properties of the code *)

(** ** The label resolver and the jumps *)

Section MoreJumps.
Context `{DishOps} `{RegexOps} `{NumberOps} `{AwaitOps}.

(** X1: an index that the resolver returns is a position of the list, the
    operation there is named Label and carries the requested name, and no
    operation before it does. *)
Theorem getLabelIndex_found :
  forall (label : jsval) (s : State) (i : Z),
    FlowControl._getLabelIndex label s = i ->
    i <> -1 ->
    0 <= i < Z.of_nat (List.length (opList s))
    /\ (exists op,
           op_at (opList s) i = Some op
           /\ name op = "Label"
           /\ strict_eq label (item (ingValues op) 0) = true)
    /\ (forall (j : Z) (op' : Operation),
           0 <= j < i ->
           op_at (opList s) j = Some op' ->
           is_label_for label op' = false).
Proof.
  intros label s i E Hi. unfold FlowControl._getLabelIndex in E.
  destruct (label_scan_first label (opList s) 0 i ltac:(lia) E Hi)
    as (pre & op & post & Hl & Hpos & Hop & Hpre).
  rewrite Hl. simpl in Hpos. clear E Hi. subst i. repeat split.
  - lia.
  - rewrite length_app. simpl. lia.
  - exists op. split; [apply op_at_app_length|].
    unfold is_label_for in Hop. apply andb_prop in Hop as [Hn Hs].
    split; [now apply String.eqb_eq | exact Hs].
  - intros j op' Hj Hat.
    rewrite op_at_app_before in Hat by lia.
    apply op_at_In in Hat.
    rewrite forallb_forall in Hpre. specialize (Hpre op' Hat).
    now apply negb_true_iff in Hpre.
Qed.

(** X2: the resolver answers -1 exactly when no operation of the list,
    enabled or not, is named Label and carries the requested name. *)
Theorem getLabelIndex_not_found_iff :
  forall (label : jsval) (s : State),
    FlowControl._getLabelIndex label s = -1
    <-> (forall op, In op (opList s) -> is_label_for label op = false).
Proof.
  intros label s. unfold FlowControl._getLabelIndex.
  rewrite (label_scan_not_found label (opList s) 0) by lia.
  rewrite forallb_forall. split; intros Hall op Hin.
  - now apply negb_true_iff, Hall.
  - now apply negb_true_iff, Hall.
Qed.

(** X3: the unconditional Jump never throws once there is an operation at
    the cursor and never touches the container, the operation list, the
    register counter or the fork offset; either it returns the state as it
    is, or it has counted one jump and the cursor is on an operation of the
    list that is named Label. *)
Theorem runJump_stays_or_lands_on_label :
  forall s : State,
    match FlowControl.runJump s with
    | Returned s' =>
        dish s' = dish s /\ opList s' = opList s
        /\ numRegisters s' = numRegisters s /\ forkOffset s' = forkOffset s
        /\ (s' = s
            \/ (numJumps s' = numJumps s + 1
                /\ 0 <= progress s' < Z.of_nat (List.length (opList s))
                /\ exists op,
                     op_at (opList s) (progress s') = Some op
                     /\ name op = "Label"))
    | Threw e s' =>
        s' = s /\ op_at (opList s) (progress s) = None
    | Diverged => False
    end.
Proof.
  intro s. unfold FlowControl.runJump.
  destruct (op_at (opList s) (progress s)) as [op|] eqn:Hop;
    [|split; reflexivity].
  destruct (num_ge _ _ || _) eqn:Hc.
  - repeat split; trivial. now left.
  - apply orb_false_iff in Hc as [_ Hi]. apply Z.eqb_neq in Hi.
    destruct (getLabelIndex_found _ s _ eq_refl Hi)
      as (Hrange & (op' & Hat & Hname & _) & _).
    simpl. repeat split; trivial. right.
    repeat split; try apply Hrange. now exists op'.
Qed.

(** X5: whatever its outcome, the Conditional Jump leaves the operation
    list, the register counter and the fork offset as they are and changes
    the container by its textual read at most.  When it returns, either the
    cursor and the jump counter are unchanged or one jump is counted and the
    cursor is on an operation named Label; when it throws (no operation at
    the cursor, a read that hands back a promise, a value that is not text,
    a pattern that does not compile), no jump is counted and the cursor has
    not moved. *)
Theorem runCondJump_frame :
  forall s : State,
    match FlowControl.runCondJump s with
    | Returned s' =>
        opList s' = opList s /\ numRegisters s' = numRegisters s
        /\ forkOffset s' = forkOffset s
        /\ (dish s' = dish s \/ dish s' = snd (dish_get STRING (dish s)))
        /\ ((progress s' = progress s /\ numJumps s' = numJumps s)
            \/ (numJumps s' = numJumps s + 1
                /\ exists op,
                     op_at (opList s) (progress s') = Some op
                     /\ name op = "Label"))
    | Threw e s' =>
        opList s' = opList s /\ numRegisters s' = numRegisters s
        /\ forkOffset s' = forkOffset s
        /\ (dish s' = dish s \/ dish s' = snd (dish_get STRING (dish s)))
        /\ progress s' = progress s /\ numJumps s' = numJumps s
    | Diverged => False
    end.
Proof.
  intro s. unfold FlowControl.runCondJump.
  destruct (op_at (opList s) (progress s)) as [op|] eqn:Hop;
    [|repeat split; auto].
  destruct (num_ge _ _ || _) eqn:Hc; [repeat split; auto|].
  apply orb_false_iff in Hc as [_ Hi]. apply Z.eqb_neq in Hi.
  destruct (negb _); [|repeat split; auto].
  destruct (dish_get STRING (dish s)) as [text d] eqn:Hget. simpl snd.
  destruct get_suspends; [repeat split; simpl; auto|].
  destruct text; try (repeat split; simpl; auto).
  destruct (regex_search _ _); [|repeat split; simpl; auto].
  destruct (_ || _); [|repeat split; simpl; auto].
  destruct (getLabelIndex_found _ s _ eq_refl Hi)
    as (_ & (op' & Hat & Hname & _) & _).
  repeat split; simpl; auto. right. split; [reflexivity|]. now exists op'.
Qed.

End MoreJumps.

(** ** Register substitution on whole arguments *)

Section MoreSubstitution.
Variable numRegisters : Z.
Variable registers : list jsval.

Lemma leading_slashes_app (s sl r : string) :
  FlowControl.leading_slashes s = (sl, r) -> s = (sl ++ r)%string.
Proof.
  revert sl r. induction s as [|c s IH]; intros sl r E; simpl in E.
  - now injection E as <- <-.
  - destruct (Ascii.eqb c FlowControl.backslash).
    + destruct (FlowControl.leading_slashes s) as [run r'].
      injection E as <- <-. simpl. f_equal. now apply IH.
    + now injection E as <- <-.
Qed.

Lemma is_digit_val (c : ascii) : is_digit c = true -> 0 <= digit_val c <= 9.
Proof.
  unfold is_digit, digit_val. intro Hd.
  apply andb_prop in Hd as [Hlo Hhi].
  apply Nat.leb_le in Hlo, Hhi. lia.
Qed.

(** What the pattern matches: the text starts with the token made of the
    two groups, and the number of the token is at most 99. *)
Lemma match_token_some (s sl rn : string) :
  FlowControl.match_token s = Some (sl, rn) ->
  (exists rest, s = ((sl ++ "$R" ++ rn) ++ rest)%string)
  /\ (exists n, digits_val 0 rn = Some n /\ 0 <= n <= 99).
Proof.
  unfold FlowControl.match_token.
  destruct (FlowControl.leading_slashes s) as [sl' r] eqn:Hl.
  apply leading_slashes_app in Hl. subst s.
  destruct r as [|c1 [|c2 [|d1 r']]]; try discriminate.
  destruct (Ascii.eqb_spec c1 "$"); [subst c1 | discriminate].
  destruct (Ascii.eqb_spec c2 "R"); [subst c2 | discriminate].
  destruct (is_digit d1) eqn:H1; [|discriminate]. simpl andb. cbv iota.
  pose proof (is_digit_val d1 H1) as B1.
  assert (forall d2 rest,
            String.append sl'
              (String "$" (String "R" (String d1 (String d2 rest))))
            = String.append (sl' ++ "$R" ++ String d1 (String d2 "")) rest)
    as E2.
  { intros d2 rest. rewrite string_app_assoc. reflexivity. }
  assert (forall rest,
            (sl' ++ String "$" (String "R" (String d1 rest)))%string
            = ((sl' ++ "$R" ++ String d1 "") ++ rest)%string) as E1.
  { intro rest. rewrite string_app_assoc. reflexivity. }
  destruct r' as [|d2 r''].
  - intro E. injection E as <- <-. split.
    + exists EmptyString. apply E1.
    + exists (digit_val d1). cbn [digits_val]. rewrite H1.
      split; [reflexivity | lia].
  - destruct (is_digit d2) eqn:H2; intro E; injection E as <- <-.
    + pose proof (is_digit_val d2 H2) as B2. split.
      * exists r''. apply E2.
      * exists (10 * (10 * 0 + digit_val d1) + digit_val d2).
        cbn [digits_val]. rewrite H1, H2. split; [reflexivity | lia].
    + split.
      * exists (String d2 r''). apply E1.
      * exists (digit_val d1). cbn [digits_val]. rewrite H1.
        split; [reflexivity | lia].
Qed.

(** When the callback returns every match as it is, so does the whole
    replacement. *)
Lemma replace_identity :
  (forall (sl rn : string) (n : Z),
      digits_val 0 rn = Some n -> 0 <= n <= 99 ->
      FlowControl.replacer numRegisters registers sl rn
      = (sl ++ "$R" ++ rn)%string) ->
  forall str : string,
    FlowControl.replaceRegister numRegisters registers str = str.
Proof.
  intros Hrep str.
  remember (String.length str) as len eqn:Hlen.
  revert str Hlen.
  induction len as [len IH] using (well_founded_induction lt_wf).
  intros str Hlen. destruct str as [|c s']; [reflexivity|].
  destruct (FlowControl.match_token (String c s')) as [[sl rn]|] eqn:Hm.
  - destruct (match_token_some _ _ _ Hm) as [[rest Hs] (n & Hn & Hb)].
    rewrite Hs in Hm |- *.
    rewrite (replace_scan_token numRegisters registers sl rn rest Hm).
    rewrite (Hrep sl rn n Hn Hb). f_equal.
    apply (IH (String.length rest)); [|reflexivity].
    subst len. rewrite Hs, !string_app_length. simpl. lia.
  - unfold FlowControl.replaceRegister. simpl FlowControl.replace_scan.
    rewrite Hm. f_equal.
    apply (IH (String.length s')); [|reflexivity].
    subst len. simpl. lia.
Qed.

Lemma no_dollar_app (a b : string) :
  no_dollar (a ++ b) = no_dollar a && no_dollar b.
Proof.
  induction a as [|c a IH]; simpl; [reflexivity|].
  now rewrite IH, andb_assoc.
Qed.

(** X6: an argument without a dollar sign holds no reference to a register
    and is returned as it is, backslashes included. *)
Theorem replaceRegister_without_dollar :
  forall str : string,
    no_dollar str = true ->
    FlowControl.replaceRegister numRegisters registers str = str.
Proof.
  unfold FlowControl.replaceRegister.
  induction str as [|c s IH]; intro Hd; [reflexivity|].
  simpl FlowControl.replace_scan.
  destruct (FlowControl.match_token (String c s)) as [[sl rn]|] eqn:Hm.
  - destruct (match_token_some _ _ _ Hm) as [[rest Hs] _].
    rewrite Hs in Hd. rewrite !no_dollar_app in Hd. simpl in Hd.
    rewrite andb_false_r in Hd. discriminate.
  - simpl in Hd. apply andb_prop in Hd as [_ Hd]. now rewrite IH.
Qed.

Lemma replace_nothing :
  groupCount registers <= 0 \/ 100 <= numRegisters ->
  forall str : string,
    FlowControl.replaceRegister numRegisters registers str = str.
Proof.
  intro Hc. apply replace_identity. intros sl rn n Hn Hb.
  unfold FlowControl.replacer. rewrite Hn. unfold groupCount in Hc.
  destruct (Z.leb_spec (n + 1) numRegisters); [reflexivity|].
  destruct (Z.geb_spec (n + 1)
              (numRegisters + Z.of_nat (List.length registers)));
    [reflexivity | lia].
Qed.

(** X7: substitution changes no text at all when the match array holds no
    group, and also once 100 registers exist before the capture: a
    reference has two digits at most, so that the registers from [$R100] on
    cannot be referred to. *)
Theorem replaceRegister_nothing_to_substitute :
  groupCount registers <= 0 \/ 100 <= numRegisters ->
  forall str : string,
    FlowControl.replaceRegister numRegisters registers str = str.
Proof.
  intros Hc str. apply replace_identity. intros sl rn n Hn Hb.
  unfold FlowControl.replacer. rewrite Hn. unfold groupCount in Hc.
  destruct (Z.leb_spec (n + 1) numRegisters); [reflexivity|].
  destruct (Z.geb_spec (n + 1)
              (numRegisters + Z.of_nat (List.length registers)));
    [reflexivity | lia].
Qed.

End MoreSubstitution.

(** ** Fork: its body, its frame and its output *)

Section MoreFork.
Context `{DishOps}.

(** X8: the body of a fork is the run of operations right after the fork
    that holds no enabled Merge and is as long as possible: it stops at the
    end of the list or right before the first enabled Merge; a disabled
    Merge is part of the body. *)
Theorem fork_body_scan :
  forall st : State,
    exists tail,
      skipn (Z.to_nat (progress st + 1)) (opList st)
      = FlowControl.fork_subOpList st ++ tail
      /\ forallb (fun op => negb (is_enabled_merge op))
           (FlowControl.fork_subOpList st) = true
      /\ (tail = []
          \/ exists m rest, tail = m :: rest /\ is_enabled_merge m = true).
Proof.
  intro st. unfold FlowControl.fork_subOpList.
  generalize (skipn (Z.to_nat (progress st + 1)) (opList st)) as l.
  induction l as [|op l (tail & Hl & Hno & Htail)]; simpl.
  - exists []. repeat split. now left.
  - fold (is_enabled_merge op). destruct (is_enabled_merge op) eqn:Hm.
    + exists (op :: l). repeat split. right. now exists op, l.
    + exists tail. simpl. rewrite Hm. simpl. repeat split; trivial.
      now rewrite <- Hl.
Qed.

(** X10: Fork throws a TypeError, without incrementing the fork offset and
    without running a tranche, when no operation is at the cursor and when
    the value read is truthy but is not text (a number, [true]), which has
    no [split]; in the second case the container has been read. *)
Theorem runFork_type_errors :
  forall (execute : exec_fn) (st : State),
    (op_at (opList st) (progress st) = None ->
     FlowControl.runFork execute st = Threw FlowControl.type_error st)
    /\ (forall (op : Operation) (v : jsval) (d1 : Dish),
           op_at (opList st) (progress st) = Some op ->
           dish_get (inputType op) (dish st) = (v, d1) ->
           truthy v = true ->
           (forall t, v <> JStr t) ->
           FlowControl.runFork execute st
           = Threw FlowControl.type_error
               {| progress := progress st; dish := d1; opList := opList st;
                  numJumps := numJumps st; numRegisters := numRegisters st;
                  forkOffset := forkOffset st |}).
Proof.
  intros execute st. split.
  - intro Hop. unfold FlowControl.runFork. now rewrite Hop.
  - intros op v d1 Hop Hget Ht Hv. unfold FlowControl.runFork.
    rewrite Hop, Hget. unfold FlowControl.fork_inputs. rewrite Ht.
    destruct v; try reflexivity. now destruct (Hv s).
Qed.

(** X11: last tranche wins.  When every tranche passes (it returns, or it
    fails while [ignoreErrors] is set), Fork returns and advances the cursor
    by what the last tranche alone recorded: its exit progress, or the exit
    progress of its failure plus one. *)
Theorem fork_last_tranche_wins :
  forall (execute : exec_fn) (st : State) (op : Operation) (text : string)
         (d1 : Dish) (init : list string) (last : string),
    op_at (opList st) (progress st) = Some op ->
    dish_get (inputType op) (dish st) = (JStr text, d1) ->
    text <> EmptyString ->
    split text (item (ingValues op) 0) = init ++ [last] ->
    forallb
      (fun x =>
         passes (item (ingValues op) 2) (fork_tranche execute st op d1 x))
      (init ++ [last]) = true ->
    exists st',
      FlowControl.runFork execute st = Returned st'
      /\ progress st'
         = progress st
           + recorded_progress 0 (fork_tranche execute st op d1 last).
Proof.
  intros execute st op text d1 init last Hop Hget Hne Hsplit Hall.
  assert (FlowControl.fork_inputs (JStr text) (item (ingValues op) 0)
          = Some (init ++ [last])) as Hin.
  { unfold FlowControl.fork_inputs. simpl.
    destruct (String.eqb_spec text ""); [contradiction|].
    simpl. now rewrite Hsplit. }
  rewrite (runFork_loop execute st op _ d1 _ Hop Hget Hin).
  unfold fork_tranche in *.
  rewrite run_tranches_all_passed by exact Hall.
  simpl FlowControl.fork_end. eexists. split; [reflexivity|].
  simpl. f_equal. rewrite fold_left_app. simpl.
  rewrite forallb_app in Hall. apply andb_prop in Hall as [_ Hlast].
  simpl in Hlast. rewrite andb_true_r in Hlast.
  destruct (FlowControl.run_tranche _ _ _ _ _ last);
    [reflexivity | reflexivity | discriminate].
Qed.

End MoreFork.

(** ** Fork and Merge with one delimiter *)

Lemma prefix_app (d s : string) :
  prefix d s = true -> exists r, s = (d ++ r)%string.
Proof.
  revert s. induction d as [|a d IH]; intros s Hp.
  - now exists s.
  - destruct s as [|b s]; simpl in Hp; [discriminate|].
    destruct (ascii_dec a b) as [<-|]; [|discriminate].
    destruct (IH s Hp) as [r ->]. now exists r.
Qed.

Lemma string_app_nil (s : string) : (s ++ "")%string = s.
Proof. induction s as [|c s IH]; simpl; [reflexivity | now rewrite IH]. Qed.

Lemma split_scan_skip (d t r cur : string) :
  split_scan d (t ++ r) (String.length t) cur = split_scan d r 0 cur.
Proof. induction t as [|c t IH]; simpl; [reflexivity | exact IH]. Qed.

Lemma split_scan_cons (d : string) (c : ascii) (s' cur : string) :
  split_scan d (String c s') 0 cur
  = if prefix d (String c s')
    then cur :: split_scan d s' (String.length d - 1) ""
    else split_scan d s' 0 (cur ++ String c "").
Proof. reflexivity. Qed.

(** Joining the pieces of a split, each followed by the separator, gives
    the text back, followed by the separator. *)
Lemma split_scan_join (d : string) :
  d <> EmptyString ->
  forall s cur : string,
    concat_all (map (fun x => (x ++ d)%string) (split_scan d s 0 cur))
    = (cur ++ s ++ d)%string.
Proof.
  intros Hd s.
  remember (String.length s) as len eqn:Hlen. revert s Hlen.
  induction len as [len IH] using (well_founded_induction lt_wf).
  intros s Hlen cur. destruct s as [|c s'].
  - simpl. now rewrite string_app_nil.
  - rewrite split_scan_cons. destruct (prefix d (String c s')) eqn:Hp.
    + destruct (prefix_app _ _ Hp) as [r Hr].
      destruct d as [|a d']; [contradiction|].
      simpl in Hr. injection Hr as <- ->.
      replace (String.length (String c d') - 1)%nat with (String.length d')
        by (simpl; lia).
      rewrite split_scan_skip.
      change (concat_all
                (map (fun x => (x ++ String c d')%string)
                   (cur :: split_scan (String c d') r 0 "")))
        with ((cur ++ String c d')
              ++ concat_all
                   (map (fun x => (x ++ String c d')%string)
                      (split_scan (String c d') r 0 "")))%string.
      rewrite (IH (String.length r)); [| |reflexivity].
      * rewrite ?string_app_assoc. simpl. rewrite ?string_app_assoc.
        reflexivity.
      * subst len. simpl. rewrite string_app_length. lia.
    + rewrite (IH (String.length s')); [| |reflexivity].
      * rewrite ?string_app_assoc. reflexivity.
      * subst len. simpl. lia.
Qed.

Lemma split_join (s d : string) :
  d <> EmptyString ->
  concat_all (map (fun x => (x ++ d)%string) (split s (JStr d)))
  = (s ++ d)%string.
Proof.
  intro Hd. unfold split. simpl to_string.
  destruct (String.eqb_spec d ""); [contradiction|].
  now rewrite split_scan_join.
Qed.

Section OneDelimiter.
Context `{DishOps}.

(** X12: a fork that splits and merges on the same non-empty delimiter,
    over a sub-recipe that leaves in each child container the tranche it was
    given, writes the text it read followed by one delimiter. *)
Theorem fork_same_delimiter_round_trip :
  forall (execute : exec_fn) (st : State) (op : Operation) (s d : string)
         (d1 : Dish),
    op_at (opList st) (progress st) = Some op ->
    dish_get (inputType op) (dish st) = (JStr s, d1) ->
    s <> EmptyString ->
    d <> EmptyString ->
    item (ingValues op) 0 = JStr d ->
    item (ingValues op) 1 = JStr d ->
    (forall x, In x (split s (JStr d)) ->
       exists p dx ings,
         fork_tranche execute st op d1 x = ExecReturned p dx ings
         /\ fst (dish_get (outputType op) dx) = JStr x) ->
    exists st',
      FlowControl.runFork execute st = Returned st'
      /\ dish st' = dish_set (JStr (s ++ d)) (outputType op) d1.
Proof.
  intros execute st op s d d1 Hop Hget Hs Hd Hsplit Hmerge Hid.
  assert (FlowControl.fork_inputs (JStr s) (item (ingValues op) 0)
          = Some (split s (JStr d))) as Hin.
  { unfold FlowControl.fork_inputs. simpl. rewrite Hsplit.
    now destruct (String.eqb_spec s ""). }
  rewrite (runFork_loop execute st op _ _ _ Hop Hget Hin).
  rewrite Hmerge. unfold fork_tranche in Hid.
  rewrite run_tranches_all_passed.
  - simpl FlowControl.fork_end. eexists. split; [reflexivity|].
    simpl. do 2 f_equal. rewrite <- (split_join s d Hd) at 1. f_equal.
    apply map_ext_in. intros x Hx.
    destruct (Hid x Hx) as (p & dx & ings & -> & Hread).
    simpl. unfold FlowControl.tranche_text. now rewrite Hread.
  - apply forallb_forall. intros x Hx.
    destruct (Hid x Hx) as (p & dx & ings & -> & _). reflexivity.
Qed.

End OneDelimiter.

(** ** Register *)

Section MoreRegister.
Context `{DishOps} `{FlowControl.MatchOps}.

Lemma rewrite_ops_related (nr : Z) (regs : list jsval) (ops : list Operation) :
  Forall2 (fun a b => same_identity a b /\ (disabled a = true -> b = a))
    ops (fst (FlowControl.rewrite_ops nr regs ops)).
Proof.
  assert (forall l : list Operation,
            Forall2
              (fun a b => same_identity a b /\ (disabled a = true -> b = a))
              l l) as Refl.
  { induction l; constructor; trivial. now repeat split. }
  induction ops as [|op ops IH]; simpl; [constructor|].
  destruct (disabled op) eqn:Hd.
  - destruct (FlowControl.rewrite_ops nr regs ops) as [rest' threw].
    simpl in *. constructor; trivial. now repeat split.
  - destruct (FlowControl.rewrite_args nr regs (ingValues op)) as [args|].
    + destruct (FlowControl.rewrite_ops nr regs ops) as [rest' threw].
      simpl in *. constructor; trivial.
      split; [now repeat split | intro Ht; simpl in Ht; congruence].
    + simpl. apply Refl.
Qed.

Lemma rewrite_args_no_null (nr : Z) (regs : list jsval) (args : list jsval) :
  forallb (fun arg => negb (strict_eq arg JNull)) args = true ->
  FlowControl.rewrite_args nr regs args
  = Some
      (map
         (fun arg =>
            match arg with
            | JStr s => JStr (FlowControl.replaceRegister nr regs s)
            | _ => arg
            end) args).
Proof.
  induction args as [|arg args IH]; intro Hn; simpl; [reflexivity|].
  simpl in Hn. apply andb_prop in Hn as [Ha Hn].
  rewrite (IH Hn). now destruct arg.
Qed.

Lemma rewrite_ops_no_null (nr : Z) (regs : list jsval) (ops : list Operation) :
  no_null_arg ops = true ->
  FlowControl.rewrite_ops nr regs ops = (map (substituted nr regs) ops, false).
Proof.
  unfold no_null_arg.
  induction ops as [|op ops IH]; intro Hn; simpl; [reflexivity|].
  simpl in Hn. apply andb_prop in Hn as [Hop Hn].
  rewrite (IH Hn). unfold substituted.
  destruct (disabled op); [reflexivity|].
  simpl in Hop. now rewrite (rewrite_args_no_null nr regs _ Hop).
Qed.

Lemma substituted_nothing (nr : Z) (regs : list jsval) (ops : list Operation) :
  groupCount regs <= 0 \/ 100 <= nr ->
  map (substituted nr regs) ops = ops.
Proof.
  intro Hc.
  assert (forall args : list jsval,
            map
              (fun arg =>
                 match arg with
                 | JStr s => JStr (FlowControl.replaceRegister nr regs s)
                 | _ => arg
                 end) args = args) as Hargs.
  { induction args as [|arg args IH]; simpl; [reflexivity|].
    rewrite IH. destruct arg; trivial.
    now rewrite (replace_nothing nr regs Hc). }
  induction ops as [|op ops IH]; simpl; [reflexivity|].
  rewrite IH. f_equal. unfold substituted.
  destruct (disabled op); [reflexivity|].
  rewrite Hargs. apply set_ingValues_same.
Qed.

(** X13: whatever its outcome, Register leaves the cursor, the jump
    counter and the fork offset as they are and changes the container by
    its textual read at most.  The operations up to and including the
    Register itself are the same; every operation after it keeps its name,
    its types and its disabled flag, and a disabled operation keeps its
    ingredient values too.  When Register throws, the register counter is
    unchanged. *)
Theorem runRegister_frame :
  forall s : State,
    match FlowControl.runRegister s with
    | Returned s' =>
        progress s' = progress s /\ numJumps s' = numJumps s
        /\ forkOffset s' = forkOffset s
        /\ (dish s' = dish s \/ dish s' = snd (dish_get STRING (dish s)))
        /\ exists later,
             opList s'
             = firstn (Z.to_nat (progress s + 1)) (opList s) ++ later
             /\ Forall2
                  (fun a b =>
                     same_identity a b /\ (disabled a = true -> b = a))
                  (skipn (Z.to_nat (progress s + 1)) (opList s)) later
    | Threw e s' =>
        progress s' = progress s /\ numJumps s' = numJumps s
        /\ forkOffset s' = forkOffset s
        /\ numRegisters s' = numRegisters s
        /\ (dish s' = dish s \/ dish s' = snd (dish_get STRING (dish s)))
        /\ exists later,
             opList s'
             = firstn (Z.to_nat (progress s + 1)) (opList s) ++ later
             /\ Forall2
                  (fun a b =>
                     same_identity a b /\ (disabled a = true -> b = a))
                  (skipn (Z.to_nat (progress s + 1)) (opList s)) later
    | Diverged => False
    end.
Proof.
  intro s.
  assert (exists later,
             opList s
             = firstn (Z.to_nat (progress s + 1)) (opList s) ++ later
             /\ Forall2
                  (fun a b =>
                     same_identity a b /\ (disabled a = true -> b = a))
                  (skipn (Z.to_nat (progress s + 1)) (opList s)) later)
    as Same.
  { exists (skipn (Z.to_nat (progress s + 1)) (opList s)).
    split; [now rewrite firstn_skipn|].
    generalize (skipn (Z.to_nat (progress s + 1)) (opList s)).
    induction l; constructor; trivial. now repeat split. }
  unfold FlowControl.runRegister.
  destruct (op_at (opList s) (progress s)) as [op|];
    [|repeat split; auto].
  destruct (FlowControl.regex_new _ _) as [extractor|];
    [|repeat split; auto].
  destruct (dish_get STRING (dish s)) as [input d]. simpl snd.
  destruct input; try (repeat split; simpl; auto).
  destruct (extractor s0) as [registers|]; [|repeat split; simpl; auto].
  pose proof (rewrite_ops_related (numRegisters s) registers
                (skipn (Z.to_nat (progress s + 1)) (opList s))) as Rel.
  destruct (FlowControl.rewrite_ops _ _ _) as [later threw].
  simpl in Rel.
  destruct threw; repeat split; simpl; auto; now exists later.
Qed.


End MoreRegister.

(** ** When Fork returns *)

Section ForkReturns.
Context `{DishOps}.

Lemma run_tranches_done_passed (execute : exec_fn) (state : State)
    (subOpList : list Operation) (baseline : list (list jsval))
    (inputType outputType : dtype) (mergeDelim ignoreErrors : jsval)
    (inputs : list string) :
  forall (output : string) (progress : Z) (ings : list (list jsval))
         (output' : string) (progress' : Z) (ings' : list (list jsval)),
    FlowControl.run_tranches execute state subOpList baseline inputType
      outputType mergeDelim ignoreErrors inputs output progress ings
    = FlowControl.LoopDone output' progress' ings' ->
    forallb
      (fun x =>
         passes ignoreErrors
           (FlowControl.run_tranche execute state subOpList baseline
              inputType x)) inputs = true.
Proof.
  induction inputs as [|x inputs IH];
    intros output progress ings output' progress' ings' E; simpl;
    [reflexivity|].
  simpl in E.
  destruct (FlowControl.run_tranche execute state subOpList baseline
              inputType x) as [p d i | p c d i |]; simpl.
  - exact (IH _ _ _ _ _ _ E).
  - destruct (truthy ignoreErrors); simpl in *; [|discriminate].
    exact (IH _ _ _ _ _ _ E).
  - discriminate.
Qed.

(** X16: Fork returns exactly when every tranche passes, a tranche passing
    when its run returns or when it fails while [ignoreErrors] is set: one
    tranche that fails without [ignoreErrors], or whose run does not end,
    keeps Fork from returning, whatever the other tranches do. *)
Theorem fork_returns_iff_all_pass :
  forall (execute : exec_fn) (st : State) (op : Operation) (v : jsval)
         (d1 : Dish) (inputs : list string),
    op_at (opList st) (progress st) = Some op ->
    dish_get (inputType op) (dish st) = (v, d1) ->
    FlowControl.fork_inputs v (item (ingValues op) 0) = Some inputs ->
    ((exists st', FlowControl.runFork execute st = Returned st')
     <-> forallb
           (fun x =>
              passes (item (ingValues op) 2)
                (fork_tranche execute st op d1 x)) inputs = true).
Proof.
  intros execute st op v d1 inputs Hop Hget Hin.
  rewrite (runFork_loop execute st op v d1 inputs Hop Hget Hin).
  unfold fork_tranche. split.
  - intros [st' E].
    destruct (FlowControl.run_tranches _ _ _ _ _ _ _ _ _ _ _ _)
      as [output p ings' | e ings' |] eqn:Hloop; try discriminate.
    exact (run_tranches_done_passed _ _ _ _ _ _ _ _ _ _ _ _ _ _ _ Hloop).
  - intro Hall. rewrite run_tranches_all_passed by exact Hall.
    simpl. eexists. reflexivity.
Qed.

End ForkReturns.

(** ** The further properties at concrete recipes *)

Lemma getLabelIndex_found_witness :
  0 <= 1 < Z.of_nat (List.length (mk_op "Comment" [] :: jump_recipe 2))
  /\ (exists op,
         op_at (mk_op "Comment" [] :: jump_recipe 2) 1 = Some op
         /\ name op = "Label"
         /\ strict_eq (JStr "L") (item (ingValues op) 0) = true)
  /\ (forall (j : Z) (op' : Operation),
         0 <= j < 1 ->
         op_at (mk_op "Comment" [] :: jump_recipe 2) j = Some op' ->
         is_label_for (JStr "L") op' = false).
Proof.
  apply (@getLabelIndex_found TextDish (JStr "L")
           (mk_state 2 (JStr "") (mk_op "Comment" [] :: jump_recipe 2) 0) 1).
  - reflexivity.
  - discriminate.
Defined.

Lemma replaceRegister_without_dollar_witness :
  FlowControl.replaceRegister 0 [JStr "12-34"; JStr "12"; JStr "34"]
    (backslashes 2 ++ "R0 costs 5")
  = (backslashes 2 ++ "R0 costs 5")%string.
Proof.
  apply (replaceRegister_without_dollar 0
           [JStr "12-34"; JStr "12"; JStr "34"]).
  reflexivity.
Defined.

Lemma replaceRegister_nothing_to_substitute_witness :
  FlowControl.replaceRegister 0 [JStr "12-34"] "$R0 to $R1" = "$R0 to $R1"
  /\ FlowControl.replaceRegister 100 [JStr "12-34"; JStr "12"; JStr "34"]
       "$R99 and $R00" = "$R99 and $R00".
Proof.
  split.
  - apply (replaceRegister_nothing_to_substitute 0 [JStr "12-34"]).
    left. unfold groupCount. simpl. lia.
  - apply (replaceRegister_nothing_to_substitute 100
             [JStr "12-34"; JStr "12"; JStr "34"]).
    right. lia.
Defined.

Lemma runFork_type_errors_witness :
  FlowControl.runFork (Recipe.execute no_other 4)
    (mk_state 5 (JStr "a,b") plain_fork 0)
  = Threw FlowControl.type_error (mk_state 5 (JStr "a,b") plain_fork 0)
  /\ FlowControl.runFork (Recipe.execute no_other 4)
       (mk_state 0 (JNum 7) plain_fork 0)
     = Threw FlowControl.type_error (mk_state 0 (JNum 7) plain_fork 0).
Proof.
  split.
  - apply (proj1 (@runFork_type_errors TextDish (Recipe.execute no_other 4)
                    (mk_state 5 (JStr "a,b") plain_fork 0))).
    reflexivity.
  - apply (proj2 (@runFork_type_errors TextDish (Recipe.execute no_other 4)
                    (mk_state 0 (JNum 7) plain_fork 0))
             (mk_op "Fork" [JStr ","; JStr ";"; JBool false])
             (JNum 7) (JNum 7) eq_refl eq_refl eq_refl).
    intros t E. discriminate E.
Defined.

Lemma fork_last_tranche_wins_witness :
  exists st',
    FlowControl.runFork (Recipe.execute fails_on_b 4)
      (mk_state 0 (JStr "a,b") (checked_fork true) 0)
    = Returned st'
    /\ progress st' = 1.
Proof.
  apply (@fork_last_tranche_wins TextDish (Recipe.execute fails_on_b 4)
           (mk_state 0 (JStr "a,b") (checked_fork true) 0)
           (mk_op "Fork" [JStr ","; JStr ";"; JBool true])
           "a,b" (JStr "a,b") ["a"] "b"
           eq_refl eq_refl ltac:(discriminate) eq_refl eq_refl).
Defined.

Lemma fork_same_delimiter_round_trip_witness :
  exists st',
    FlowControl.runFork (Recipe.execute no_other 4)
      (mk_state 0 (JStr "a,,b")
         [mk_op "Fork" [JStr ","; JStr ","; JBool false]; mk_op "Merge" []] 0)
    = Returned st'
    /\ dish st' = JStr "a,,b,".
Proof.
  apply (@fork_same_delimiter_round_trip TextDish
           (Recipe.execute no_other 4)
           (mk_state 0 (JStr "a,,b")
              [mk_op "Fork" [JStr ","; JStr ","; JBool false];
               mk_op "Merge" []] 0)
           (mk_op "Fork" [JStr ","; JStr ","; JBool false])
           "a,,b" "," (JStr "a,,b")
           eq_refl eq_refl ltac:(discriminate) ltac:(discriminate)
           eq_refl eq_refl).
  intros x Hx. vm_compute in Hx.
  destruct Hx as [<- | [<- | [<- | []]]];
    eexists; eexists; eexists; split; reflexivity.
Defined.

Lemma fork_returns_iff_all_pass_witness :
  (exists st',
      FlowControl.runFork (Recipe.execute fails_on_b 4)
        (mk_state 0 (JStr "a,b") (checked_fork true) 0)
      = Returned st')
  /\ ~ (exists st',
           FlowControl.runFork (Recipe.execute fails_on_b 4)
             (mk_state 0 (JStr "a,b") (checked_fork false) 0)
           = Returned st').
Proof.
  split.
  - apply (proj2 (@fork_returns_iff_all_pass TextDish
                    (Recipe.execute fails_on_b 4)
                    (mk_state 0 (JStr "a,b") (checked_fork true) 0)
                    (mk_op "Fork" [JStr ","; JStr ";"; JBool true])
                    (JStr "a,b") (JStr "a,b") ["a"; "b"]
                    eq_refl eq_refl eq_refl)).
    reflexivity.
  - intro Hret.
    apply (proj1 (@fork_returns_iff_all_pass TextDish
                    (Recipe.execute fails_on_b 4)
                    (mk_state 0 (JStr "a,b") (checked_fork false) 0)
                    (mk_op "Fork" [JStr ","; JStr ";"; JBool false])
                    (JStr "a,b") (JStr "a,b") ["a"; "b"]
                    eq_refl eq_refl eq_refl)) in Hret.
    discriminate Hret.
Defined.

